(** * tv_viewer: the media delivery routes of [app.py]

    A shallow embedding of the Flask application in [tv_viewer/app.py]:
    the routes [/browse], [/video], [/stream] and [/thumb], the path
    arithmetic they rely on ([os.path.join] on a Windows host, since
    [BASE_DIR] is a drive-letter path), a tree model of the file system
    and a small-step model of the generator that pipes the encoder's
    standard output into the response. *)

From Stdlib Require Import String Ascii List Bool Arith NArith Lia DecimalString.
From Stdlib Require Import Init.Byte.
Import ListNotations.
Open Scope string_scope.

Set Warnings "-register-all".

(** ** Python [str] operations used by the routes

    Strings are sequences of 8-bit characters.  [lower] and [upper] map
    the ASCII letters and leave every other character alone: they are
    Python's [str.lower] and [str.upper] on ASCII strings only, and the
    case mapping of the other characters of Unicode is not modelled. *)
Module Str.

Definition lower_ascii (c : ascii) : ascii :=
  let n := N_of_ascii c in
  if ((65 <=? n) && (n <=? 90))%N then ascii_of_N (n + 32) else c.

Definition upper_ascii (c : ascii) : ascii :=
  let n := N_of_ascii c in
  if ((97 <=? n) && (n <=? 122))%N then ascii_of_N (n - 32) else c.

Fixpoint map (f : ascii -> ascii) (s : string) : string :=
  match s with
  | EmptyString => EmptyString
  | String c s' => String (f c) (map f s')
  end.

(** [s.lower()] and [s.upper()] for an ASCII string [s] *)
Definition lower : string -> string := map lower_ascii.
Definition upper : string -> string := map upper_ascii.

(** [s[:n]] and [s[n:]] for [n >= 0] *)
Fixpoint take (n : nat) (s : string) : string :=
  match n, s with
  | S n', String c s' => String c (take n' s')
  | _, _ => EmptyString
  end.

Fixpoint drop (n : nat) (s : string) : string :=
  match n, s with
  | S n', String _ s' => drop n' s'
  | _, _ => s
  end.

(** [s[-1]] when [s] is not empty *)
Fixpoint last (s : string) : option ascii :=
  match s with
  | EmptyString => None
  | String c EmptyString => Some c
  | String _ s' => last s'
  end.

Definition is_empty (s : string) : bool :=
  match s with EmptyString => true | _ => false end.

(** [s.endswith(suffix)] *)
Definition endswith (s suffix : string) : bool :=
  (String.length suffix <=? String.length s)%nat
  && (drop (String.length s - String.length suffix) s =? suffix).

(** [needle in s] *)
Fixpoint contains (needle s : string) : bool :=
  String.prefix needle s
  || match s with
     | EmptyString => false
     | String _ s' => contains needle s'
     end.

(** [s.find(c, start)], with [None] for [-1] *)
Fixpoint find (c : ascii) (s : string) (start : nat) : option nat :=
  match s with
  | EmptyString => None
  | String a s' =>
      match start with
      | O => if (a =? c)%char then Some O else option_map S (find c s' O)
      | S k => option_map S (find c s' k)
      end
  end.

(** [s.split(c)]: the pieces between the occurrences of [c]; [cur] is
    the piece being read, most recent character first. *)
Fixpoint rev_string (acc s : string) : string :=
  match s with
  | EmptyString => acc
  | String c s' => rev_string (String c acc) s'
  end.

Fixpoint split_by (sepb : ascii -> bool) (cur s : string) : list string :=
  match s with
  | EmptyString => [rev_string "" cur]
  | String c s' =>
      if sepb c then rev_string "" cur :: split_by sepb "" s'
      else split_by sepb (String c cur) s'
  end.

Definition split (c : ascii) (s : string) : list string :=
  split_by (Ascii.eqb c) "" s.

(** [sep.join(parts)] *)
Fixpoint join (sep : string) (parts : list string) : string :=
  match parts with
  | [] => ""
  | [x] => x
  | x :: rest => x ++ sep ++ join sep rest
  end.

(** [str(n)] for a non-negative integer *)
Definition of_N (n : N) : string := NilZero.string_of_uint (N.to_uint n).

End Str.

(** ** [ntpath]: [os.path] on Windows *)
Module NtPath.

Definition sep : ascii := "\"%char.
Definition altsep : ascii := "/"%char.
Definition colon : ascii := ":"%char.

(** [c in seps] with [seps = '\\/'] *)
Definition in_seps (c : ascii) : bool := (c =? sep)%char || (c =? altsep)%char.

(** [p.replace(altsep, sep)] *)
Definition normseps : string -> string :=
  Str.map (fun c => if (c =? altsep)%char then sep else c).

Definition unc_prefix : string := "\\?\UNC\".

(** [ntpath.splitdrive]: a drive letter with its colon, or a UNC or
    device prefix [\\host\share], is split from the rest. *)
Definition splitdrive (p : string) : string * string :=
  if (2 <=? String.length p)%nat then
    let normp := normseps p in
    if Str.take 2 normp =? "\\" then
      let start := if Str.upper (Str.take 8 normp) =? unc_prefix then 8 else 2 in
      match Str.find sep normp start with
      | None => (p, "")
      | Some index =>
          match Str.find sep normp (index + 1) with
          | None => (p, "")
          | Some index2 => (Str.take index2 p, Str.drop index2 p)
          end
      end
    else if Str.take 1 (Str.drop 1 normp) =? String colon "" then
      (Str.take 2 p, Str.drop 2 p)
    else ("", p)
  else ("", p).

(** [p and p[0] in seps] *)
Definition starts_with_sep (p : string) : bool :=
  match p with
  | String c _ => in_seps c
  | EmptyString => false
  end.

(** [p and p[-1] not in seps] *)
Definition lacks_trailing_sep (p : string) : bool :=
  match Str.last p with
  | Some c => negb (in_seps c)
  | None => false
  end.

(** One turn of the loop of [ntpath.join] over the components after
    the first; the state is [(result_drive, result_path)]. *)
Definition join_step (st : string * string) (p : string) : string * string :=
  let '(result_drive, result_path) := st in
  let '(p_drive, p_path) := splitdrive p in
  if starts_with_sep p_path then
    (* the component is absolute *)
    (if negb (Str.is_empty p_drive) || Str.is_empty result_drive
     then p_drive else result_drive, p_path)
  else if negb (Str.is_empty p_drive) && negb (p_drive =? result_drive) then
    if negb (Str.lower p_drive =? Str.lower result_drive) then
      (* another drive: what came before is dropped *)
      (p_drive, p_path)
    else
      (* the same drive in another case *)
      (p_drive,
       (if lacks_trailing_sep result_path
        then result_path ++ String sep "" else result_path) ++ p_path)
  else
    (result_drive,
     (if lacks_trailing_sep result_path
      then result_path ++ String sep "" else result_path) ++ p_path).

(** [os.path.join(path, *paths)] *)
Definition join (path : string) (paths : list string) : string :=
  let '(result_drive, result_path) :=
    fold_left join_step paths (splitdrive path) in
  if negb (Str.is_empty result_path)
     && negb (starts_with_sep result_path)
     && negb (Str.is_empty result_drive)
     && negb (match Str.last result_drive with
              | Some c => (c =? colon)%char
              | None => false
              end)
  then result_drive ++ String sep "" ++ result_path
  else result_drive ++ result_path.

(** [os.path.basename(p)]: what follows the last separator of the part
    after the drive. *)
Definition basename (p : string) : string :=
  List.last (Str.split_by in_seps "" (snd (splitdrive p))) "".

End NtPath.

(** ** The file system the server reads

    A volume is a tree of directories and regular files.  A path is
    resolved the way Windows does it: the drive selects the volume, the
    rest is cut at both separators, empty and [.] segments are dropped and
    [..] steps to the parent (the root is its own parent), all before the
    tree is consulted.  Names are compared exactly, the tree has no links
    and no devices; a path with a drive but no root is taken from the
    working directory when the drive is the working drive and from the
    volume's root otherwise. *)
Module Fs.

Inductive node : Type :=
| File (content : list byte)
| Dir (entries : list (string * node)).

(** A volume name and the segments from its root. *)
Definition location : Type := string * list string.

Record t : Type := mk {
  volumes : list (string * node);
  cwd : location
}.

Fixpoint assoc {A : Type} (k : string) (l : list (string * A)) : option A :=
  match l with
  | [] => None
  | (k', v) :: rest => if k' =? k then Some v else assoc k rest
  end.

Fixpoint walk (n : node) (segs : list string) : option node :=
  match segs with
  | [] => Some n
  | s :: rest =>
      match n with
      | Dir entries =>
          match assoc s entries with
          | Some child => walk child rest
          | None => None
          end
      | File _ => None
      end
  end.

(** [stack] holds the segments kept so far, innermost first. *)
Fixpoint normalise (stack segs : list string) : list string :=
  match segs with
  | [] => rev stack
  | s :: rest =>
      if (s =? "") || (s =? ".") then normalise stack rest
      else if s =? ".." then normalise (tl stack) rest
      else normalise (s :: stack) rest
  end.

Definition segments (rest : string) : list string :=
  Str.split_by NtPath.in_seps "" rest.

Definition locate (fs : t) (path : string) : location :=
  let '(drive, rest) := NtPath.splitdrive path in
  let vol :=
    if Str.is_empty drive then fst (cwd fs)
    else Str.upper (NtPath.normseps drive) in
  let base :=
    if NtPath.starts_with_sep rest then []
    else if vol =? fst (cwd fs) then snd (cwd fs) else [] in
  (vol, normalise (rev base) (segments rest)).

Definition lookup (fs : t) (loc : location) : option node :=
  match assoc (fst loc) (volumes fs) with
  | Some root => walk root (snd loc)
  | None => None
  end.

Definition stat (fs : t) (path : string) : option node :=
  lookup fs (locate fs path).

(** [os.path.exists], [os.path.isfile], [os.path.isdir] *)
Definition exists_ (fs : t) (path : string) : bool :=
  match stat fs path with Some _ => true | None => false end.

Definition isfile (fs : t) (path : string) : bool :=
  match stat fs path with Some (File _) => true | _ => false end.

Definition isdir (fs : t) (path : string) : bool :=
  match stat fs path with Some (Dir _) => true | _ => false end.

(** [os.listdir]; [None] stands for the [OSError] raised on anything
    but a directory. *)
Definition listdir (fs : t) (path : string) : option (list string) :=
  match stat fs path with
  | Some (Dir entries) => Some (List.map fst entries)
  | _ => None
  end.

(** The bytes of a regular file. *)
Definition read_file (fs : t) (path : string) : option (list byte) :=
  match stat fs path with
  | Some (File content) => Some content
  | _ => None
  end.

(** [loc] is [root] or lies below it. *)
Definition at_or_below (root loc : location) : Prop :=
  fst loc = fst root /\ exists rest, snd loc = (snd root ++ rest)%list.

(** [loc] lies below [root] and is not [root] itself. *)
Definition strictly_below (root loc : location) : Prop :=
  fst loc = fst root /\ exists s rest, snd loc = (snd root ++ s :: rest)%list.

End Fs.

(** ** The encoder process behind [subprocess.Popen]

    What a launched encoder does is a script of events in the order it
    performs them: a byte written to standard output, a byte written to
    standard error, or a fault of the output pipe.  Both streams are
    pipes ([stdout=PIPE], [stderr=PIPE]).  The script is run on demand by
    the reads of standard output, which is what the reader observes of a
    process that runs ahead of it; a byte written to standard error stays
    in that pipe until somebody reads it, and the pipe holds at most
    [cap] bytes, so the process stops at a write to a full pipe. *)
Module Enc.

Inductive event : Type :=
| Out (b : byte)
| Err (b : byte)
| Fail.

Record proc : Type := mk {
  cmd : list string;
  script : list event;
  err_fill : N;
  terminated : bool
}.

Inductive read_result : Type :=
| RData (data : list byte)
| RBlocked
| RFail.

Definition cons_data (b : byte) (r : read_result) : read_result :=
  match r with
  | RData data => RData (b :: data)
  | other => other
  end.

(** A buffered [read(n)] of the standard output pipe: it returns when
    [n] bytes have arrived or the process has closed the pipe, raises
    at a fault, and never returns when the process is stopped at a full
    standard error pipe.  The result comes with the rest of the script
    and the fill of the standard error pipe. *)
Fixpoint pull (cap : N) (script : list event) (n : N) (fill : N)
  : read_result * list event * N :=
  if (n =? 0)%N then (RData [], script, fill)
  else
    match script with
    | [] => (RData [], [], fill)
    | Out b :: rest =>
        let '(r, script', fill') := pull cap rest (N.pred n) fill in
        (cons_data b r, script', fill')
    | Err _ :: rest =>
        if (fill <? cap)%N then pull cap rest n (N.succ fill)
        else (RBlocked, script, fill)
    | Fail :: rest => (RFail, rest, fill)
    end.

(** The process is stopped at a write to the full standard error pipe. *)
Definition blocked_on_stderr (cap : N) (p : proc) : bool :=
  negb (terminated p)
  && match script p with
     | Err _ :: _ => (cap <=? err_fill p)%N
     | _ => false
     end.

Fixpoint stdout_of (script : list event) : list byte :=
  match script with
  | [] => []
  | Out b :: rest => b :: stdout_of rest
  | _ :: rest => stdout_of rest
  end.

Fixpoint stderr_count (script : list event) : N :=
  match script with
  | [] => 0
  | Err _ :: rest => N.succ (stderr_count rest)
  | _ :: rest => stderr_count rest
  end.

Fixpoint faultless (script : list event) : bool :=
  match script with
  | [] => true
  | Fail :: _ => false
  | _ :: rest => faultless rest
  end.

End Enc.

(** ** The application *)
Module App.

Definition BASE_DIR : string := "D:\TV".

Definition VIDEO_EXTS : list string :=
  [".mp4"; ".mkv"; ".avi"; ".mov"; ".wmv"; ".flv"; ".ts"; ".webm"; ".m2ts"].

Definition template_folder : string := "templates/ux".

Definition FFMPEG : string :=
  "C:\ffmpeg-2025-11-17-git-e94439e49b-full_build\bin\ffmpeg.exe".

(** [1024*1024], the size of one read of the encoder's output *)
Definition CHUNK : N := 1024 * 1024.

(** What the server runs on: the disk, the table behind
    [mimetypes.guess_type], what the encoder binary does for a command
    line ([None]: it cannot be launched) and the capacity of a pipe. *)
Record machine : Type := mkMachine {
  disk : Fs.t;
  guess_type : string -> option string;
  encoder : list string -> option (list Enc.event);
  pipe_capacity : N
}.

(** The parts of a request the routes look at.  [range] is the parsed
    [Range: bytes=first-last] header. *)
Record request : Type := mkRequest {
  user_agent : option string;
  host : string;
  range : option (N * N)
}.

Inductive exn : Type :=
| RequestedRangeNotSatisfiable (length : N)
| NotFound
| UnboundLocalError
| OSError.

(** Values handed to a template. *)
Inductive value : Type :=
| VStr (s : string)
| VBool (b : bool)
| VList (l : list value)
| VDict (d : list (string * value)).

(** The generator object made by [generate()] inside [stream]: not yet
    entered, parked at [yield data] with its process, inside a read
    that does not return, or left. *)
Inductive gen_state : Type :=
| GenCreated (full_path : string)
| GenSuspended (pid : nat)
| GenReading (pid : nat)
| GenClosed.

Inductive body_t : Type :=
| Text (s : string)
| Bytes (b : list byte)
| Template (name : string) (context : list (string * value))
| Stream (g : gen_state).

Record response : Type := mkResponse {
  status : N;
  content_type : string;
  headers : list (string * string);
  body : body_t
}.

Definition html : string := "text/html; charset=utf-8".

(** [return text, code] *)
Definition text_response (s : string) (code : N) : response :=
  mkResponse code html [] (Text s).

(** [render_template(name, **context)] *)
Definition render_template (name : string) (context : list (string * value))
  : response :=
  mkResponse 200 html [] (Template name context).

Definition newline : string := String "010"%char "".

(** The page the library sends with status 416. *)
Definition range_not_satisfiable_page : string :=
  "<!doctype html>" ++ newline
  ++ "<html lang=en>" ++ newline
  ++ "<title>416 Requested Range Not Satisfiable</title>" ++ newline
  ++ "<h1>Requested Range Not Satisfiable</h1>" ++ newline
  ++ "<p>The server cannot provide the requested range.</p>" ++ newline.

(** Modelled from the spec: what Flask answers when a view raises is
    library code outside the repository; the statuses are those of
    section 7: an unsatisfiable range is answered 416, NotFound 404, and
    any other exception is a 500.  The answer 416 is the library's own:
    it carries [Content-Range: bytes */size] and a short HTML page, not
    the empty body of section 8. *)
Definition handle_exception (e : exn) : response :=
  match e with
  | RequestedRangeNotSatisfiable size =>
      mkResponse 416 html [("Content-Range", "bytes */" ++ Str.of_N size)]
        (Text range_not_satisfiable_page)
  | NotFound => mkResponse 404 html [] (Text "Not Found")
  | UnboundLocalError | OSError =>
      mkResponse 500 html [] (Text "Internal Server Error")
  end.

Definition dispatch (r : exn + response) : response :=
  match r with
  | inl e => handle_exception e
  | inr resp => resp
  end.

(** Modelled from the spec: [flask.send_file] is library code outside
    the repository; this is the RangeFileServer of section 4.3.  It
    advertises [Accept-Ranges: bytes]; without a range it answers 200
    with the whole file and its length; with a range that starts inside
    the file it answers 206 with the span (cut at the end of the file)
    and [Content-Range]; with any other range on a file that is not
    empty it fails with RangeNotSatisfiable, and with NotFound when the
    path is no regular file.  On an empty file the library does not look
    at the range and answers as without one; the model follows the
    library there. *)
Definition send_file (m : machine) (req : request) (path mimetype : string)
  : exn + response :=
  match Fs.read_file (disk m) path with
  | None => inl NotFound
  | Some content =>
      let size := N.of_nat (List.length content) in
      let whole :=
        mkResponse 200 mimetype
          [("Accept-Ranges", "bytes"); ("Content-Length", Str.of_N size)]
          (Bytes content) in
      match range req with
      | None => inr whole
      | Some (first, last) =>
          if (size =? 0)%N then inr whole
          else if ((first <=? last) && (first <? size))%N then
            let stop := N.min last (size - 1) in
            let count := (stop - first + 1)%N in
            inr (mkResponse 206 mimetype
                   [("Accept-Ranges", "bytes");
                    ("Content-Range",
                     "bytes " ++ Str.of_N first ++ "-" ++ Str.of_N stop
                     ++ "/" ++ Str.of_N size);
                    ("Content-Length", Str.of_N count)]
                   (Bytes (firstn (N.to_nat count)
                             (skipn (N.to_nat first) content))))
          else inl (RequestedRangeNotSatisfiable size)
      end
  end.

(** [mimetypes.guess_type(path)[0] or default] *)
Definition mime_or (m : machine) (path default : string) : string :=
  match guess_type m path with
  | Some t => if Str.is_empty t then default else t
  | None => default
  end.

(** [sorted(names)] *)
Fixpoint insert_sorted (x : string) (l : list string) : list string :=
  match l with
  | [] => [x]
  | y :: rest => if String.leb x y then x :: l else y :: insert_sorted x rest
  end.

Definition sorted (l : list string) : list string :=
  fold_right insert_sorted [] l.

(** [any(f.lower().endswith(ext) for ext in VIDEO_EXTS)] *)
Definition is_video (f : string) : bool :=
  existsb (fun ext => Str.endswith (Str.lower f) ext) VIDEO_EXTS.

(** ['mobile' in request.headers.get('User-Agent', '').lower()] *)
Definition mobile (req : request) : bool :=
  Str.contains "mobile"
    (Str.lower (match user_agent req with Some ua => ua | None => "" end)).

(** ['/'.join(path.split('/')[:-1]) if '/' in path else ''] *)
Definition parent_of (path : string) : string :=
  if Str.contains "/" path
  then Str.join "/" (removelast (Str.split "/"%char path))
  else "".

(** The thumbnail loop of [browse] with its [else] clause and the
    statement after it.  The loop variables are [d], [files] and
    [has_thumb]; the [else] of a [for] without [break] always runs and
    resets [has_thumb], and the [append] after it reads the last [d],
    which is unbound when [dirs] is empty. *)
Definition thumb_loop (m : machine) (subpath : string)
  (dirs files : list string) : exn + list value :=
  let step (st : exn + (option string * list string * option bool))
           (d : string) :=
    match st with
    | inl e => inl e
    | inr (_, files, _) =>
        let folder_path :=
          if negb (Str.is_empty subpath)
          then NtPath.join BASE_DIR [subpath; d]
          else NtPath.join BASE_DIR [d] in
        let has_thumb (fs : list string) :=
          existsb (fun f => Str.lower f =? "index.jpg") fs in
        if Fs.exists_ (disk m) folder_path then
          match Fs.listdir (disk m) folder_path with
          | Some files' => inr (Some d, files', Some (has_thumb files'))
          | None => inl OSError
          end
        else inr (Some d, files, Some (has_thumb files))
    end in
  match fold_left step dirs (inr (None, files, None)) with
  | inl e => inl e
  | inr (d, _, _) =>
      let has_thumb := false in
      match d with
      | Some d =>
          inr [VDict [("name", VStr d); ("has_thumb", VBool has_thumb)]]
      | None => inl UnboundLocalError
      end
  end.

Definition browse_view (m : machine) (req : request) (subpath : string)
  : exn + response :=
  let full_path := NtPath.join BASE_DIR [subpath] in
  if negb (Fs.exists_ (disk m) full_path) then
    inr (text_response "Path not found" 404)
  else if Fs.isfile (disk m) full_path then
    send_file m req full_path (mime_or m full_path "video/mp4")
  else
    match Fs.listdir (disk m) full_path with
    | None => inl OSError
    | Some items =>
        let dirs := sorted (filter (fun item =>
          Fs.isdir (disk m) (NtPath.join full_path [item])) items) in
        let files := sorted (filter (fun item =>
          Fs.isfile (disk m) (NtPath.join full_path [item])) items) in
        let videos := List.map (fun f =>
          VDict [("name", VStr f);
                 ("href", VStr ("/browse/" ++
                    (if negb (Str.is_empty subpath)
                     then subpath ++ "/" ++ f else f)))])
          (sorted (filter is_video files)) in
        let other_files :=
          sorted (filter (fun f => negb (is_video f)) files) in
        let parent_path := parent_of subpath in
        let is_mobile := mobile req in
        match
          (if Str.contains "ux" (Str.lower template_folder)
           then thumb_loop m subpath dirs files
           else inr (List.map VStr dirs))
        with
        | inl e => inl e
        | inr dirs_processed =>
            inr (render_template "index.html"
                   [("dirs", VList dirs_processed);
                    ("videos", VList videos);
                    ("other_files", VList (List.map VStr other_files));
                    ("subpath", VStr subpath);
                    ("parent_path", VStr parent_path);
                    ("is_mobile", VBool is_mobile);
                    ("host", VStr (host req))])
        end
    end.

(** [/browse/<path:subpath>] *)
Definition browse (m : machine) (req : request) (subpath : string) : response :=
  dispatch (browse_view m req subpath).

(** [/] *)
Definition index (m : machine) (req : request) : response :=
  browse m req "".

(** [/play/<path:filepath>] *)
Definition play (m : machine) (filepath : string) : response :=
  let full_path := NtPath.join BASE_DIR [filepath] in
  if negb (Fs.exists_ (disk m) full_path) || negb (Fs.isfile (disk m) full_path)
  then text_response "Video not found" 404
  else
    render_template "player.html"
      [("filename", VStr (NtPath.basename full_path));
       ("filepath", VStr filepath);
       ("back_path", VStr (parent_of filepath))].

(** [/video/<path:filepath>] *)
Definition video (m : machine) (req : request) (filepath : string) : response :=
  let full_path := NtPath.join BASE_DIR [filepath] in
  if negb (Fs.exists_ (disk m) full_path) || negb (Fs.isfile (disk m) full_path)
  then text_response "File not found" 404
  else dispatch (send_file m req full_path (mime_or m full_path "video/mp4")).

(** The command line built by [generate]. *)
Definition command (full_path : string) : list string :=
  [FFMPEG; "-i"; full_path; "-c:v"; "libx264"; "-c:a"; "aac";
   "-preset"; "ultrafast"; "-b:v"; "500k"; "-b:a"; "96k"; "-f"; "mp4";
   "-movflags"; "frag_keyframe"; "-"].

(** [/stream/<path:filepath>]: the response holds the generator, whose
    body has not been entered yet. *)
Definition stream (m : machine) (filepath : string) : response :=
  let full_path := NtPath.join BASE_DIR [filepath] in
  if negb (Fs.exists_ (disk m) full_path) || negb (Fs.isfile (disk m) full_path)
  then text_response "File not found" 404
  else
    mkResponse 200 "video/mp4" [("Accept-Ranges", "bytes")]
      (Stream (GenCreated full_path)).

(** [/thumb/<path:thumbpath>]; the [print] calls only write to the
    console and are left out. *)
Definition thumb (m : machine) (req : request) (thumbpath : string) : response :=
  if Str.endswith thumbpath "/index.jpg" then
    let folder_path :=
      NtPath.join BASE_DIR
        [Str.take (String.length thumbpath - String.length "/index.jpg")
           thumbpath] in
    let img_path := NtPath.join BASE_DIR [thumbpath] in
    if Fs.exists_ (disk m) img_path then
      match send_file m req img_path (mime_or m img_path "image/jpeg") with
      | inr resp => resp
      | inl _ => text_response "" 500
      end
    else text_response "" 404
  else text_response "" 404.

End App.

(** ** The generator of [stream] and the processes it owns *)
Module Generate.
Import App.

(** The processes launched while one response is served, and every
    command line handed to [Popen]. *)
Record world : Type := mkWorld {
  procs : list Enc.proc;
  spawn_log : list (list string)
}.

Definition empty_world : world := mkWorld [] [].

Fixpoint update (pid : nat) (f : Enc.proc -> Enc.proc) (l : list Enc.proc)
  : list Enc.proc :=
  match l, pid with
  | [], _ => []
  | p :: rest, O => f p :: rest
  | p :: rest, S k => p :: update k f rest
  end.

(** [subprocess.Popen(command, stdout=PIPE, stderr=PIPE)]: [None] when
    the binary cannot be launched (the call raises), else the index of
    the new process. *)
Definition popen (m : machine) (w : world) (command : list string)
  : option nat * world :=
  match encoder m command with
  | None => (None, mkWorld (procs w) (spawn_log w ++ [command]))
  | Some script =>
      (Some (List.length (procs w)),
       mkWorld (procs w ++ [Enc.mk command script 0 false])
               (spawn_log w ++ [command]))
  end.

(** [proc.stdout.read(n)] *)
Definition stdout_read (m : machine) (w : world) (pid : nat) (n : N)
  : Enc.read_result * world :=
  match nth_error (procs w) pid with
  | None => (Enc.RFail, w)
  | Some p =>
      let '(r, script', fill') :=
        Enc.pull (pipe_capacity m) (Enc.script p) n (Enc.err_fill p) in
      (r, mkWorld
            (update pid (fun p => Enc.mk (Enc.cmd p) script' fill'
                                         (Enc.terminated p)) (procs w))
            (spawn_log w))
  end.

(** [proc.terminate()] *)
Definition terminate (w : world) (pid : nat) : world :=
  mkWorld
    (update pid (fun p => Enc.mk (Enc.cmd p) (Enc.script p) (Enc.err_fill p)
                                 true) (procs w))
    (spawn_log w).

Inductive outcome : Type :=
| Yielded (data : list byte)
| StopIteration
| Raised (e : exn)
| Blocked.

(** From the head of [while True] to the next [yield], [break] or
    exception; leaving the [try] runs the [finally]. *)
Definition loop (m : machine) (w : world) (pid : nat)
  : world * gen_state * outcome :=
  match stdout_read m w pid CHUNK with
  | (Enc.RData [], w') => (terminate w' pid, GenClosed, StopIteration)
  | (Enc.RData data, w') => (w', GenSuspended pid, Yielded data)
  | (Enc.RFail, w') => (terminate w' pid, GenClosed, Raised OSError)
  | (Enc.RBlocked, w') => (w', GenReading pid, Blocked)
  end.

(** [next(g)] *)
Definition next (m : machine) (w : world) (g : gen_state)
  : world * gen_state * outcome :=
  match g with
  | GenCreated full_path =>
      match popen m w (command full_path) with
      | (None, w') => (w', GenClosed, Raised OSError)
      | (Some pid, w') => loop m w' pid
      end
  | GenSuspended pid => loop m w pid
  | GenReading pid => (w, GenReading pid, Blocked)
  | GenClosed => (w, GenClosed, StopIteration)
  end.

(** [g.close()]: [GeneratorExit] is raised at the [yield] where the
    generator is parked, which runs the [finally]; a generator that was
    never entered has nothing to run. *)
Definition close (w : world) (g : gen_state) : world * gen_state :=
  match g with
  | GenSuspended pid => (terminate w pid, GenClosed)
  | GenReading pid => (w, GenReading pid)
  | GenCreated _ | GenClosed => (w, GenClosed)
  end.

End Generate.

(** ** The WSGI server sending a response

    The server iterates the body and writes each item to the client; it
    calls [close()] on the body when the iteration ends, when it raises
    and when a write fails because the client is gone.  [client] is the
    number of chunks the client takes before it disconnects. *)
Module Server.
Import App Generate.

(** How the sending ended: the body was exhausted, a write failed, the
    body raised, or the body is inside a read that never returns, in
    which case the response does not end at all. *)
Inductive ending : Type :=
| Completed
| ClientGone
| Errored (e : exn)
| Hung.

Record run : Type := mkRun {
  final : world;
  sent : list (list byte);
  how : ending
}.

Fixpoint drive (m : machine) (client : nat) (w : world) (g : gen_state)
  (out : list (list byte)) : run :=
  match next m w g with
  | (w', g', Yielded data) =>
      match client with
      | O => mkRun (fst (close w' g')) out ClientGone
      | S client' => drive m client' w' g' (out ++ [data])
      end
  | (w', g', StopIteration) => mkRun (fst (close w' g')) out Completed
  | (w', g', Raised e) => mkRun (fst (close w' g')) out (Errored e)
  | (w', g', Blocked) => mkRun w' out Hung
  end.

(** Sending a response; only a streamed body runs code of the
    application. *)
Definition serve (m : machine) (client : nat) (r : response) : run :=
  match body r with
  | Stream g => drive m client empty_world g []
  | _ => mkRun empty_world [] Completed
  end.

End Server.

(** ** Sample machines *)
Module Sample.
Import App.

Definition bytes_of (s : string) : list byte := list_byte_of_string s.

(** A ten-byte episode under the library root, a thumbnail at the top
    of the library, a file next to the library on the same drive and a
    file on another drive. *)
Definition episode : list byte := bytes_of "0123456789".
Definition secret : list byte := bytes_of "root:x:0:0".
Definition win_ini : list byte := bytes_of "[fonts]".

Definition disk : Fs.t :=
  Fs.mk
    [("D:", Fs.Dir
        [("TV", Fs.Dir
            [("Show", Fs.Dir [("ep1.mp4", Fs.File episode);
                              ("index.jpg", Fs.File (bytes_of "jpg"))]);
             ("index.jpg", Fs.File (bytes_of "top"))]);
         ("etc", Fs.Dir [("passwd", Fs.File secret)])]);
     ("C:", Fs.Dir [("Windows", Fs.Dir [("win.ini", Fs.File win_ini)])])]
    ("D:", ["TV"]).

Definition no_types (path : string) : option string := None.

(** An encoder that writes five bytes and exits. *)
Definition quiet (cmd : list string) : option (list Enc.event) :=
  Some (List.map Enc.Out (bytes_of "hello")).

(** An encoder that reports three bytes of progress before each of its
    two bytes of output. *)
Definition chatty (cmd : list string) : option (list Enc.event) :=
  Some [Enc.Err "a"%byte; Enc.Err "b"%byte; Enc.Err "c"%byte; Enc.Out "x"%byte;
        Enc.Err "d"%byte; Enc.Err "e"%byte; Enc.Err "f"%byte; Enc.Out "y"%byte].

Definition machine_quiet : machine := mkMachine disk no_types quiet 4.
Definition machine_chatty : machine := mkMachine disk no_types chatty 4.

Definition plain_get : request := mkRequest None "tv.local:8000" None.

End Sample.

(** ** Vocabulary of the statements *)
Module Stmt.
Import App Generate Server.

(** The library root as a location. *)
Definition root : Fs.location := ("D:", ["TV"]).

(** The path a route computes from the path of the request. *)
Definition resolved (p : string) : string := NtPath.join BASE_DIR [p].

(** A request path with no drive or UNC prefix, no leading separator
    and no [..] segment. *)
Definition plain (p : string) : bool :=
  Str.is_empty (fst (NtPath.splitdrive p))
  && negb (NtPath.starts_with_sep p)
  && negb (existsb (String.eqb "..") (Fs.segments p)).

(** The answer to a request for [p] is a refusal, or the location read
    lies strictly inside the library. *)
Definition confined (m : machine) (p : string) (r : response) : Prop :=
  status r = 403%N \/ status r = 404%N
  \/ Fs.strictly_below root (Fs.locate (disk m) (resolved p)).

Definition is_terminated (pr : Enc.proc) : Prop := Enc.terminated pr = true.

(** The arguments of the command line that do not depend on the
    request. *)
Definition fixed_args : list string :=
  ["-c:v"; "libx264"; "-c:a"; "aac"; "-preset"; "ultrafast";
   "-b:v"; "500k"; "-b:a"; "96k"; "-f"; "mp4";
   "-movflags"; "frag_keyframe"; "-"].

Definition chunk_len (c : list byte) : N := N.of_nat (List.length c).

(** Every chunk but the last holds exactly [CHUNK] bytes; the last one
    is not empty and holds at most [CHUNK] bytes. *)
Fixpoint full_but_last (chunks : list (list byte)) : Prop :=
  match chunks with
  | [] => True
  | [c] => (0 < chunk_len c <= CHUNK)%N
  | c :: rest => chunk_len c = CHUNK /\ full_but_last rest
  end.

End Stmt.

(** ** The thumbnail generator of [scripts/generate_tv_thumbnails.py]

    The script walks the sub-folders of a target directory and fetches a
    poster for each as [index.jpg].  What it prints is left out (the
    console is taken to accept every line), except where building the
    line can raise.  The cleaning of a folder name (regular
    expressions), the search (network) and the download (network and
    image library) are parameters: the first is a function of the name;
    the search acts on the world outside and may raise, since it only
    catches the errors of the request itself; the download acts on the
    world outside and on the file system and, catching every exception,
    always returns. *)
Module Thumbs.

Definition SKIP_FOLDERS : list string := ["!Web Series"].

(** [should_skip_folder(folder_name)] *)
Definition should_skip_folder (folder_name : string) : bool :=
  if existsb (String.eqb folder_name) SKIP_FOLDERS then true
  else if String.prefix "!" folder_name then true
  else false.

Inductive exc : Type :=
| AttributeError
| TypeError
| KeyError
| ValueError
| NotADirectoryError.

(** The fields of [self] that the methods below read. *)
Record generator : Type := mkGenerator {
  target_dir : string;
  dry_run : bool;
  verbose : bool;
  image_width : N
}.

(** The counters of [run], in the order the dictionary is written. *)
Definition stats0 : list (string * N) :=
  [("success", 0%N); ("exists", 0%N); ("skipped_blacklist", 0%N);
   ("search_failed", 0%N); ("no_poster", 0%N); ("download_failed", 0%N);
   ("dry-run", 0%N)].

(** [stats[key] += 1]; [None] stands for the [KeyError] of a missing
    key. *)
Fixpoint bump (key : string) (stats : list (string * N))
  : option (list (string * N)) :=
  match stats with
  | [] => None
  | (k, n) :: rest =>
      if k =? key then Some ((k, N.succ n) :: rest)
      else option_map (cons (k, n)) (bump key rest)
  end.

Fixpoint total (stats : list (string * N)) : N :=
  match stats with
  | [] => 0
  | (_, n) :: rest => n + total rest
  end.

Definition count (key : string) (stats : list (string * N)) : N :=
  match Fs.assoc key stats with Some n => n | None => 0%N end.

Inductive run_result : Type :=
| SysExit (code : N)
| Uncaught (e : exc)
| Returned (stats : list (string * N)).

Section Methods.

(** JSON numbers are kept abstract; the script only tests them for
    zero. *)
Variable number : Type.
Variable is_zero : number -> bool.

(** A value decoded from JSON; [JNull] is [None]. *)
Inductive json : Type :=
| JNull
| JBool (b : bool)
| JNum (n : number)
| JStr (s : string)
| JList (items : list json)
| JDict (fields : list (string * json)).

(** The truth value Python gives to [v] in [if v] and [not v]. *)
Definition truthy (v : json) : bool :=
  match v with
  | JNull => false
  | JBool b => b
  | JNum n => negb (is_zero n)
  | JStr s => negb (Str.is_empty s)
  | JList items => match items with [] => false | _ => true end
  | JDict fields => match fields with [] => false | _ => true end
  end.

(** [v.get(key, default)]: only a dictionary has the method. *)
Definition get (v : json) (key : string) (default : json) : exc + json :=
  match v with
  | JDict fields =>
      inr (match Fs.assoc key fields with
           | Some x => x
           | None => default
           end)
  | _ => inl AttributeError
  end.

(** [v[:4]]: strings and lists can be sliced, anything else raises
    ([TypeError]; for a dictionary [KeyError] from Python 3.12 on). *)
Definition slice4 (v : json) : exc + json :=
  match v with
  | JStr s => inr (JStr (Str.take 4 s))
  | JList items => inr (JList (firstn 4 items))
  | _ => inl TypeError
  end.

(** The world outside the process, and the three methods that are
    parameters: [search_tvmaze_show] returns [(show_data, error)] or
    raises, [download_and_resize_poster] returns whether it succeeded. *)
Variable outside : Type.
Variable clean_show_name : string -> string.
Variable search_tvmaze_show :
  generator -> outside -> string
  -> (exc + (json * option string)) * outside.
Variable download_and_resize_poster :
  generator -> outside * Fs.t -> json -> string -> bool * (outside * Fs.t).

(** The directories that the operating system refuses to list: for
    them [os.listdir] raises [PermissionError]. *)
Variable denied : Fs.t -> string -> bool.

Definition state : Type := (outside * Fs.t)%type.

(** [if error:] for [None] or a string *)
Definition is_error (error : option string) : bool :=
  match error with
  | Some msg => negb (Str.is_empty msg)
  | None => false
  end.

(** The values formatted by the line printed in verbose mode once a
    poster is known: [show_data.get('name')] and
    [show_data.get('premiered', 'Unknown year')[:4]]. *)
Definition found_line (show_data : json) : exc + (json * json) :=
  match get show_data "name" JNull with
  | inl e => inl e
  | inr name =>
      match get show_data "premiered" (JStr "Unknown year") with
      | inl e => inl e
      | inr premiered =>
          match slice4 premiered with
          | inl e => inl e
          | inr year => inr (name, year)
          end
      end
  end.

(** [process_show_folder(self, folder_path, folder_name)]: the status
    string, or the exception that escapes. *)
Definition process_show_folder (self : generator) (st : state)
  (folder_path folder_name : string) : (exc + string) * state :=
  if should_skip_folder folder_name then (inr "skipped_blacklist", st)
  else
    let show_name := clean_show_name folder_name in
    if dry_run self then (inr "dry-run", st)
    else
      let index_path := NtPath.join folder_path ["index.jpg"] in
      if Fs.exists_ (snd st) index_path then (inr "exists", st)
      else
        let '(found, out1) := search_tvmaze_show self (fst st) show_name in
        let st1 := (out1, snd st) in
        match found with
        | inl e => (inl e, st1)
        | inr (show_data, error) =>
        if is_error error then (inr "search_failed", st1)
        else
          match show_data with
          | JNull => (inr "search_failed", st1)
          | _ =>
              match
                match get show_data "image" (JDict []) with
                | inl e => inl e
                | inr image => get image "medium" JNull
                end
              with
              | inl _ => (inr "search_failed", st1)
              | inr poster_path =>
                  if negb (truthy poster_path) then (inr "no_poster", st1)
                  else
                    match
                      (if verbose self
                       then match found_line show_data with
                            | inl e => Some e
                            | inr _ => None
                            end
                       else None)
                    with
                    | Some e => (inl e, st1)
                    | None =>
                        let '(success, st2) :=
                          download_and_resize_poster self st1 poster_path
                            index_path in
                        (inr (if success then "success" else "download_failed"),
                         st2)
                    end
              end
          end
        end.

(** The loop of [run] over the folders, with its tally. *)
Fixpoint process_all (self : generator) (st : state)
  (folders : list (string * string)) (stats : list (string * N))
  : (exc + list (string * N)) * state :=
  match folders with
  | [] => (inr stats, st)
  | (folder_path, folder_name) :: rest =>
      match process_show_folder self st folder_path folder_name with
      | (inl e, st') => (inl e, st')
      | (inr result, st') =>
          match bump result stats with
          | None => (inl KeyError, st')
          | Some stats' => process_all self st' rest stats'
          end
      end
  end.

(** The sub-folders [run] collects: [(item_path, item)] for every entry
    of the target directory that is a directory. *)
Definition folders_of (fs : Fs.t) (target : string) (items : list string)
  : list (string * string) :=
  List.map (fun item => (NtPath.join target [item], item))
    (filter (fun item => Fs.isdir fs (NtPath.join target [item])) items).

(** [run(self)]: how it ends ([sys.exit], an exception, or the counters
    it has printed) and the state it leaves.  Listing the target raises
    [NotADirectoryError], which nothing catches, when it is no
    directory, and [PermissionError], which is caught and leads to
    [sys.exit(1)], when the listing is refused. *)
Definition run (self : generator) (st : state) : run_result * state :=
  if negb (Fs.exists_ (snd st) (target_dir self)) then (SysExit 1, st)
  else
    match Fs.listdir (snd st) (target_dir self) with
    | None => (Uncaught NotADirectoryError, st)
    | Some items =>
        if denied (snd st) (target_dir self) then (SysExit 1, st)
        else
          let folders := folders_of (snd st) (target_dir self) items in
          match folders with
          | [] => (SysExit 0, st)
          | _ =>
              match process_all self st folders stats0 with
              | (inl e, st') => (Uncaught e, st')
              | (inr stats, st') => (Returned stats, st')
              end
          end
    end.

End Methods.

Arguments JNull {number}.
Arguments JBool {number} b.
Arguments JNum {number} n.
Arguments JStr {number} s.
Arguments JList {number} items.
Arguments JDict {number} fields.
Arguments truthy {number} is_zero v.
Arguments get {number} v key default.
Arguments slice4 {number} v.
Arguments found_line {number} show_data.

End Thumbs.

(** ** A sample run of the thumbnail generator *)
Module ThumbSample.
Import Thumbs.

(** The world outside is the number of requests made so far; numbers
    are naturals. *)
Definition is_zero (n : N) : bool := (n =? 0)%N.

Definition clean (name : string) : string := name.

(** A search that finds every show: "Sherlock" with [image: null],
    "Lost" without an [image] key, any other with a poster and
    [premiered: null]. *)
Definition search (self : generator) (requests : nat) (show_name : string)
  : (exc + (json N * option string)) * nat :=
  (inr (JDict (("name", JStr show_name)
               :: (if show_name =? "Sherlock" then [("image", JNull)]
                   else if show_name =? "Lost" then []
                   else [("image",
                          JDict [("medium", JStr "http://img/p.jpg")]);
                         ("premiered", JNull)])),
        None),
   S requests).

(** A download that always fails and writes nothing. *)
Definition download (self : generator) (st : nat * Fs.t) (poster : json N)
  (output_path : string) : bool * (nat * Fs.t) :=
  (false, (S (fst st), snd st)).

Definition library : Fs.t :=
  Fs.mk
    [("D:", Fs.Dir
        [("TV", Fs.Dir
            [("Castle", Fs.Dir [("index.jpg", Fs.File [])]);
             ("Suits", Fs.Dir []);
             ("!Web Series", Fs.Dir []);
             ("notes.txt", Fs.File [])]);
         ("Empty", Fs.Dir [("readme.txt", Fs.File [])]);
         ("Locked", Fs.Dir [("Lost", Fs.Dir [])])])]
    ("D:", []).

Definition process (self : generator) (st : nat * Fs.t)
  (folder_path folder_name : string) : (exc + string) * (nat * Fs.t) :=
  process_show_folder N is_zero nat clean search download self st
    folder_path folder_name.

(** Only the listing of [D:\Locked] is refused. *)
Definition refused (fs : Fs.t) (path : string) : bool := path =? "D:\Locked".

Definition run_with (self : generator) (st : nat * Fs.t)
  : run_result * (nat * Fs.t) :=
  run N is_zero nat clean search download refused self st.

Definition for_real : generator := mkGenerator "D:\TV" false false 300.
Definition rehearsal : generator := mkGenerator "D:\TV" true false 300.
Definition chatty_real : generator := mkGenerator "D:\TV" false true 300.

End ThumbSample.

(** ** Vocabulary of the further statements *)
Module Words.

(** No character of [s] is a path separator. *)
Fixpoint sepfree (s : string) : bool :=
  match s with
  | EmptyString => true
  | String c s' => negb (NtPath.in_seps c) && sepfree s'
  end.

(** No character of [s] satisfies [f]. *)
Fixpoint none (f : ascii -> bool) (s : string) : Prop :=
  match s with
  | EmptyString => True
  | String c s' => f c = false /\ none f s'
  end.

(** Every character of [s] is an ASCII character. *)
Fixpoint ascii_only (s : string) : bool :=
  match s with
  | EmptyString => true
  | String c s' => (N_of_ascii c <? 128)%N && ascii_only s'
  end.

(** A body without content. *)
Definition empty_body (b : App.body_t) : Prop :=
  b = App.Bytes [] \/ b = App.Text "".

(** Walking the segments of a relative path from [depth] levels below
    the library root: the depth reached, or [None] when a [..] steps
    above the root. *)
Fixpoint descend (depth : nat) (segs : list string) : option nat :=
  match segs with
  | [] => Some depth
  | s :: rest =>
      if (s =? "") || (s =? ".") then descend depth rest
      else if s =? ".." then
        match depth with
        | O => None
        | S d => descend d rest
        end
      else descend (S depth) rest
  end.

(** The depth below the library root that a request path reaches when
    it has no drive or UNC prefix, no leading separator and never steps
    above the root; [None] for every other path. *)
Definition reach (p : string) : option nat :=
  if Str.is_empty (fst (NtPath.splitdrive p))
     && negb (NtPath.starts_with_sep p)
  then descend 0 (Fs.segments p)
  else None.

(** The names a listing shows: those of its [dirs], [videos] and
    [other_files]. *)
Definition names_of (v : option App.value) : list string :=
  match v with
  | Some (App.VList l) =>
      flat_map (fun x =>
        match x with
        | App.VStr s => [s]
        | App.VDict d =>
            match Fs.assoc "name" d with
            | Some (App.VStr s) => [s]
            | _ => []
            end
        | _ => []
        end) l
  | _ => []
  end.

Definition listed (context : list (string * App.value)) : list string :=
  (names_of (Fs.assoc "dirs" context)
   ++ names_of (Fs.assoc "videos" context)
   ++ names_of (Fs.assoc "other_files" context))%list.

End Words.

(** ** Further sample machines *)
Module Edge.
Import App.

(** A library that holds an empty file. *)
Definition disk_blank : Fs.t :=
  Fs.mk [("D:", Fs.Dir [("TV", Fs.Dir [("blank.mp4", Fs.File [])])])]
        ("D:", ["TV"]).

Definition machine_blank : machine :=
  mkMachine disk_blank Sample.no_types Sample.quiet 4.

(** An encoder that reports one byte of progress before each of its two
    bytes of output. *)
Definition murmur (cmd : list string) : option (list Enc.event) :=
  Some [Enc.Err "a"%byte; Enc.Out "x"%byte; Enc.Err "b"%byte; Enc.Out "y"%byte].

Definition machine_murmur : machine :=
  mkMachine Sample.disk Sample.no_types murmur 4.

End Edge.

(** * Properties *)

(** ** Strings *)
Module StrFacts.
Import Str.

Lemma take_drop (n : nat) (s : string) : take n s ++ drop n s = s.
Proof.
  revert s; induction n as [|n IH]; intros [|c s]; simpl; try reflexivity.
  now rewrite IH.
Qed.

Lemma length_app (s t : string) :
  String.length (s ++ t) = String.length s + String.length t.
Proof. induction s as [|c s IH]; simpl; [reflexivity | now rewrite IH]. Qed.

Lemma drop_app_length (s t : string) : drop (String.length s) (s ++ t) = t.
Proof. induction s as [|c s IH]; simpl; [now destruct t | exact IH]. Qed.

Lemma take_empty (n : nat) (s : string) : take n s = "" -> drop n s = s.
Proof. destruct n, s; simpl; try reflexivity; discriminate. Qed.

(** [endswith] decides whether the string literally ends with the
    suffix. *)
Lemma endswith_spec (s suffix : string) :
  endswith s suffix = true <-> exists pre, s = pre ++ suffix.
Proof.
  unfold endswith; split.
  - intros H; apply andb_true_iff in H as [_ H].
    apply String.eqb_eq in H.
    remember (String.length s - String.length suffix) as k.
    exists (take k s). rewrite <- H. symmetry; apply take_drop.
  - intros [pre ->]. rewrite length_app.
    apply andb_true_iff; split.
    + apply Nat.leb_le; lia.
    + replace (String.length pre + String.length suffix - String.length suffix)
        with (String.length pre) by lia.
      rewrite drop_app_length. apply String.eqb_refl.
Qed.

End StrFacts.

(** ** Paths *)
Module PathFacts.
Import App Stmt.

Lemma root_located (fs : Fs.t) : Fs.locate fs BASE_DIR = root.
Proof. reflexivity. Qed.

Lemma splitdrive_no_drive (p : string) :
  fst (NtPath.splitdrive p) = "" -> NtPath.splitdrive p = ("", p).
Proof.
  unfold NtPath.splitdrive.
  destruct (2 <=? String.length p)%nat eqn:Hlen; [|reflexivity].
  apply Nat.leb_le in Hlen.
  assert (Hne : p <> "") by (destruct p; simpl in Hlen; [lia | discriminate]).
  destruct (Str.take 2 (NtPath.normseps p) =? "\\").
  - destruct (Str.find _ _ _) as [index|]; simpl; [|contradiction].
    destruct (Str.find _ _ _) as [index2|]; simpl; [|contradiction].
    intros H. rewrite H. now rewrite (StrFacts.take_empty _ _ H).
  - destruct (_ =? _); simpl; [|reflexivity].
    intros H. destruct p; [contradiction | discriminate].
Qed.

(** On a plain path the join appends to the root directory. *)
Lemma join_plain (p : string) :
  plain p = true -> resolved p = "D:\TV\" ++ p.
Proof.
  unfold plain. intros H.
  apply andb_true_iff in H as [H _]. apply andb_true_iff in H as [Hd Hs].
  assert (Hsplit : NtPath.splitdrive p = ("", p)).
  { apply splitdrive_no_drive. now destruct (fst (NtPath.splitdrive p)). }
  apply negb_true_iff in Hs.
  unfold resolved, NtPath.join, BASE_DIR. simpl fold_left.
  change (NtPath.splitdrive "D:\TV") with ("D:", "\TV").
  unfold NtPath.join_step. rewrite Hsplit, Hs. reflexivity.
Qed.

Lemma normalise_grows (segs stack : list string) :
  existsb (String.eqb "..") segs = false ->
  exists ext, Fs.normalise stack segs = (rev stack ++ ext)%list.
Proof.
  revert stack; induction segs as [|s segs IH]; intros stack H;
    cbn [existsb Fs.normalise] in *.
  - exists []. now rewrite app_nil_r.
  - apply orb_false_iff in H as [Hs H].
    destruct ((s =? "") || (s =? ".")).
    + now apply IH.
    + rewrite String.eqb_sym in Hs. rewrite Hs.
      destruct (IH (s :: stack) H) as [ext ->].
      exists (s :: ext). simpl. now rewrite <- app_assoc.
Qed.

Lemma locate_plain (fs : Fs.t) (p : string) :
  plain p = true ->
  Fs.at_or_below root (Fs.locate fs (resolved p)).
Proof.
  intros H. rewrite (join_plain p H).
  unfold plain in H. apply andb_true_iff in H as [_ H].
  apply negb_true_iff in H.
  assert (Hloc : Fs.locate fs ("D:\TV\" ++ p)
                 = ("D:", Fs.normalise ["TV"] (Fs.segments p)))
    by reflexivity.
  rewrite Hloc.
  destruct (normalise_grows _ ["TV"] H) as [ext ->].
  split; [reflexivity | now exists ext].
Qed.

End PathFacts.

(** ** The routes that serve files *)
Module RouteFacts.
Import App Stmt.

Lemma read_file_checks (fs : Fs.t) (path : string) (content : list byte) :
  Fs.read_file fs path = Some content ->
  Fs.exists_ fs path = true /\ Fs.isfile fs path = true.
Proof.
  unfold Fs.read_file, Fs.exists_, Fs.isfile.
  destruct (Fs.stat fs path) as [[c|es]|]; intros H; try discriminate.
  now split.
Qed.

Lemma isfile_read (fs : Fs.t) (path : string) :
  Fs.isfile fs path = true ->
  exists content, Fs.stat fs path = Some (Fs.File content).
Proof.
  unfold Fs.isfile.
  destruct (Fs.stat fs path) as [[c|es]|]; intros H; try discriminate.
  now exists c.
Qed.

(** Past its two checks, [video] is [send_file] on the joined path. *)
Lemma video_sends (m : machine) (req : request) (p : string) (content : list byte) :
  Fs.read_file (disk m) (resolved p) = Some content ->
  video m req p =
  dispatch (send_file m req (resolved p) (mime_or m (resolved p) "video/mp4")).
Proof.
  intros H. destruct (read_file_checks _ _ _ H) as [He Hf].
  unfold video. fold (resolved p). now rewrite He, Hf.
Qed.

Lemma send_file_status (m : machine) (req : request) (path mime : string)
  (r : response) :
  send_file m req path mime = inr r -> status r = 200%N \/ status r = 206%N.
Proof.
  unfold send_file.
  destruct (Fs.read_file (disk m) path); [|discriminate].
  destruct (range req) as [[first last]|].
  - destruct (_ =? _)%N; [intros H; injection H as <-; now left|].
    destruct (_ && _); [|discriminate].
    intros H; injection H as <-; now right.
  - intros H; injection H as <-; now left.
Qed.

Lemma dispatch_not_forbidden (r : exn + response) :
  (forall resp, r = inr resp -> status resp <> 403%N) ->
  status (dispatch r) <> 403%N.
Proof.
  destruct r as [e|resp]; simpl; intros H.
  - destruct e; discriminate.
  - now apply H.
Qed.

Lemma send_file_not_forbidden (m : machine) (req : request) (path mime : string) :
  status (dispatch (send_file m req path mime)) <> 403%N.
Proof.
  apply dispatch_not_forbidden. intros resp H.
  destruct (send_file_status _ _ _ _ _ H) as [-> | ->]; discriminate.
Qed.

Lemma video_not_forbidden (m : machine) (req : request) (p : string) :
  status (video m req p) <> 403%N.
Proof.
  unfold video. destruct (_ || _); [discriminate|].
  apply send_file_not_forbidden.
Qed.

Lemma stream_not_forbidden (m : machine) (p : string) :
  status (stream m p) <> 403%N.
Proof. unfold stream. destruct (_ || _); discriminate. Qed.

Lemma browse_not_forbidden (m : machine) (req : request) (p : string) :
  status (browse m req p) <> 403%N.
Proof.
  unfold browse, browse_view.
  destruct (negb _); [discriminate|].
  destruct (Fs.isfile _ _); [apply send_file_not_forbidden|].
  destruct (Fs.listdir _ _); [|discriminate].
  destruct (if Str.contains _ _ then _ else _) as [e|dirs_processed];
    [destruct e|]; intros H; cbn in H; discriminate H.
Qed.

(** C1, as the claim has it, fails: with the library of [Sample.disk],
    [GET /video/Show/../../etc/passwd] is answered 200 with the bytes of
    [D:\etc\passwd], a file outside [D:\TV]; [/stream] and [/browse]
    accept the same path.  A path with a leading backslash or with a
    drive of its own leaves the library without any [..], and [.] makes
    [/browse] list the root itself, which is not strictly inside it. *)
Lemma traversal_leaves_root :
  let m := Sample.machine_quiet in
  let p := "Show/../../etc/passwd" in
  resolved p = "D:\TV\Show/../../etc/passwd"
  /\ Fs.locate (disk m) (resolved p) = ("D:", ["etc"; "passwd"])
  /\ status (video m Sample.plain_get p) = 200%N
  /\ body (video m Sample.plain_get p) = Bytes Sample.secret
  /\ ~ confined m p (video m Sample.plain_get p)
  /\ ~ confined m p (stream m p)
  /\ ~ confined m p (browse m Sample.plain_get p)
  /\ body (video m Sample.plain_get "\etc\passwd") = Bytes Sample.secret
  /\ ~ confined m "\etc\passwd" (video m Sample.plain_get "\etc\passwd")
  /\ body (video m Sample.plain_get "C:/Windows/win.ini") = Bytes Sample.win_ini
  /\ ~ confined m "C:/Windows/win.ini"
        (video m Sample.plain_get "C:/Windows/win.ini")
  /\ Fs.locate (disk m) (resolved ".") = root
  /\ ~ confined m "." (browse m Sample.plain_get ".").
Proof.
  assert (Hout : forall loc, (loc = ("D:", ["etc"; "passwd"])
                              \/ loc = ("C:", ["Windows"; "win.ini"])
                              \/ loc = root) ->
                             ~ Fs.strictly_below root loc).
  { intros loc [-> | [-> | ->]] [Hvol (s & rest & H)];
      cbn in Hvol, H; discriminate. }
  repeat split; try reflexivity;
    intros [H | [H | H]]; try discriminate H;
    revert H; apply Hout; cbn; auto.
Qed.

(** C3: for a regular file at the joined path, [GET /video/<path>]
    with [Range: bytes=N-M], [N <= M] and [M] inside the file, is
    answered 206 with exactly the [M-N+1] bytes that start at offset
    [N], and a [Content-Range] header naming that span and the size. *)
Theorem video_range_inside (m : machine) (req : request) (p : string)
  (content : list byte) (first last : N) :
  Fs.read_file (disk m) (resolved p) = Some content ->
  range req = Some (first, last) ->
  (first <= last)%N ->
  (last < N.of_nat (List.length content))%N ->
  let span := firstn (N.to_nat (last - first + 1))
                (skipn (N.to_nat first) content) in
  status (video m req p) = 206%N
  /\ body (video m req p) = Bytes span
  /\ N.of_nat (List.length span) = (last - first + 1)%N
  /\ In ("Content-Range",
         "bytes " ++ Str.of_N first ++ "-" ++ Str.of_N last ++ "/"
         ++ Str.of_N (N.of_nat (List.length content)))
        (headers (video m req p)).
Proof.
  intros Hread Hrange Hle Hlt span.
  rewrite (video_sends m req p content Hread).
  unfold send_file. rewrite Hread, Hrange.
  assert (Hin : ((first <=? last) && (first <? N.of_nat (List.length content)))%N
                = true).
  { apply andb_true_iff; split; [apply N.leb_le | apply N.ltb_lt]; lia. }
  assert (Hsome : (N.of_nat (List.length content) =? 0)%N = false)
    by (apply N.eqb_neq; lia).
  cbv zeta. rewrite Hsome, Hin. rewrite N.min_l by lia.
  cbn [dispatch status body headers].
  repeat split.
  - subst span. rewrite length_firstn, length_skipn. lia.
  - right; left; reflexivity.
Qed.

Lemma video_range_inside_witness :
  let req := mkRequest None "tv.local:8000" (Some (2, 5)%N) in
  status (video Sample.machine_quiet req "Show/ep1.mp4") = 206%N
  /\ body (video Sample.machine_quiet req "Show/ep1.mp4")
     = Bytes (Sample.bytes_of "2345").
Proof.
  intros req.
  pose proof (video_range_inside Sample.machine_quiet req "Show/ep1.mp4"
                Sample.episode 2 5 eq_refl eq_refl) as H.
  assert (H1 : (2 <= 5)%N) by lia.
  assert (H2 : (5 < N.of_nat (List.length Sample.episode))%N)
    by (vm_compute; reflexivity).
  destruct (H H1 H2) as (Hs & Hb & _).
  split; [exact Hs | exact Hb].
Defined.

(** C4, as the claim has it, fails: the answer 416 to a range beyond
    the ten bytes of [Show/ep1.mp4] is not empty, it carries the
    library's page of 177 characters; and a range on an empty file is
    not answered 416 at all but 200. *)
Lemma range_beyond_is_not_an_empty_416 :
  let beyond := mkRequest None "tv.local:8000" (Some (10, 19)%N) in
  let first := mkRequest None "tv.local:8000" (Some (0, 0)%N) in
  status (video Sample.machine_quiet beyond "Show/ep1.mp4") = 416%N
  /\ body (video Sample.machine_quiet beyond "Show/ep1.mp4")
     = Text range_not_satisfiable_page
  /\ String.length range_not_satisfiable_page = 177
  /\ ~ Words.empty_body (body (video Sample.machine_quiet beyond "Show/ep1.mp4"))
  /\ Fs.read_file Edge.disk_blank (resolved "blank.mp4") = Some []
  /\ status (video Edge.machine_blank first "blank.mp4") = 200%N.
Proof.
  cbv zeta. repeat split; try reflexivity.
  intros [H | H]; discriminate H.
Qed.

(** C4, amended: for a regular file at the joined path that is not
    empty, [GET /video/<path>] with a range that starts at or after the
    end of the file is answered 416 with [Content-Range: bytes */size]
    and the library's error page as body; on an empty file the range is
    not looked at and the answer is 200 with the empty content. *)
Theorem video_range_beyond (m : machine) (req : request) (p : string)
  (content : list byte) (first last : N) :
  Fs.read_file (disk m) (resolved p) = Some content ->
  range req = Some (first, last) ->
  (N.of_nat (List.length content) <= first)%N ->
  (content <> [] ->
   status (video m req p) = 416%N
   /\ body (video m req p) = Text range_not_satisfiable_page
   /\ In ("Content-Range",
          "bytes */" ++ Str.of_N (N.of_nat (List.length content)))
         (headers (video m req p)))
  /\ (content = [] ->
      status (video m req p) = 200%N /\ body (video m req p) = Bytes []).
Proof.
  intros Hread Hrange Hbeyond.
  rewrite (video_sends m req p content Hread).
  unfold send_file. rewrite Hread, Hrange. cbv zeta. split.
  - intros Hne.
    assert (Hsome : (N.of_nat (List.length content) =? 0)%N = false)
      by (apply N.eqb_neq; destruct content; [contradiction | cbn; lia]).
    assert (Hout : (first <? N.of_nat (List.length content))%N = false)
      by (apply N.ltb_ge; lia).
    rewrite Hsome, Hout, andb_false_r. cbn [dispatch handle_exception].
    repeat split. now left.
  - intros ->. cbn. now split.
Qed.

Lemma video_range_beyond_witness :
  let req := mkRequest None "tv.local:8000" (Some (10, 19)%N) in
  Sample.episode <> []
  /\ status (video Sample.machine_quiet req "Show/ep1.mp4") = 416%N
  /\ In ("Content-Range", "bytes */10")
        (headers (video Sample.machine_quiet req "Show/ep1.mp4")).
Proof.
  intros req.
  assert (Hne : Sample.episode <> []) by discriminate.
  split; [exact Hne|].
  destruct (video_range_beyond Sample.machine_quiet req "Show/ep1.mp4"
              Sample.episode 10 19 eq_refl eq_refl) as [Hfull _].
  - vm_compute. discriminate.
  - destruct (Hfull Hne) as (Hs & _ & Hh). split; [exact Hs | exact Hh].
Defined.

(** C5: for a regular file at the joined path, [GET /video/<path>]
    without a [Range] header is answered 200, the body is the whole
    content of the file and [Content-Length] is its size. *)
Theorem video_whole_file (m : machine) (req : request) (p : string)
  (content : list byte) :
  Fs.read_file (disk m) (resolved p) = Some content ->
  range req = None ->
  status (video m req p) = 200%N
  /\ body (video m req p) = Bytes content
  /\ In ("Content-Length", Str.of_N (N.of_nat (List.length content)))
        (headers (video m req p)).
Proof.
  intros Hread Hrange.
  rewrite (video_sends m req p content Hread).
  unfold send_file. rewrite Hread, Hrange. cbn [dispatch status body headers].
  repeat split. right; left; reflexivity.
Qed.

Lemma video_whole_file_witness :
  status (video Sample.machine_quiet Sample.plain_get "Show/ep1.mp4") = 200%N
  /\ body (video Sample.machine_quiet Sample.plain_get "Show/ep1.mp4")
     = Bytes Sample.episode
  /\ In ("Content-Length", "10")
        (headers (video Sample.machine_quiet Sample.plain_get "Show/ep1.mp4")).
Proof.
  exact (video_whole_file Sample.machine_quiet Sample.plain_get "Show/ep1.mp4"
           Sample.episode eq_refl eq_refl).
Defined.

(** C10: [/thumb/<path>] answers 404 unless the path literally ends
    with [/index.jpg]; in particular [/thumb/index.jpg] is answered 404
    on every machine, also when [BASE_DIR\index.jpg] is a file. *)
Theorem thumb_needs_slash_index_jpg (m : machine) (req : request) (p : string) :
  ~ (exists pre, p = pre ++ "/index.jpg") ->
  thumb m req p = text_response "" 404
  /\ status (thumb m req p) = 404%N
  /\ thumb m req "index.jpg" = text_response "" 404.
Proof.
  intros H.
  assert (Hp : thumb m req p = text_response "" 404).
  { unfold thumb.
    destruct (Str.endswith p "/index.jpg") eqn:He; [|reflexivity].
    apply StrFacts.endswith_spec in He. contradiction. }
  rewrite Hp. repeat split.
Qed.

Lemma thumb_needs_slash_index_jpg_witness :
  Fs.isfile (disk Sample.machine_quiet) (resolved "index.jpg") = true
  /\ thumb Sample.machine_quiet Sample.plain_get "index.jpg"
     = text_response "" 404.
Proof.
  split; [reflexivity|].
  apply (thumb_needs_slash_index_jpg Sample.machine_quiet Sample.plain_get
           "index.jpg").
  intros [pre H]. apply (f_equal String.length) in H.
  rewrite StrFacts.length_app in H. simpl in H. lia.
Defined.

End RouteFacts.

(** ** Reading the encoder's pipe *)
Module PipeFacts.
Import Enc.
Local Open Scope list_scope.

(** What one read does to the script: the bytes of standard output it
    passes are the bytes it returns (or loses, when it does not
    return), no byte leaves the standard error pipe, a short result
    means the process has closed its output, and the read is stuck only
    at a write to a full standard error pipe. *)
Lemma pull_account (cap : N) (script : list event) :
  forall (n fill : N) (r : read_result) (script' : list event) (fill' : N),
  pull cap script n fill = (r, script', fill') ->
  (fill' + stderr_count script' = fill + stderr_count script)%N
  /\ exists got,
       stdout_of script = got ++ stdout_of script'
       /\ (N.of_nat (List.length got) <= n)%N
       /\ match r with
          | RData d =>
              d = got /\ ((N.of_nat (List.length d) < n)%N -> script' = [])
          | RBlocked =>
              (exists b rest, script' = Err b :: rest) /\ (cap <= fill')%N
          | RFail => faultless script = false
          end.
Proof.
  induction script as [|ev rest IH]; intros n fill r script' fill' H.
  - assert (H' : (RData [], @nil event, fill) = (r, script', fill'))
      by (simpl in H; destruct (n =? 0)%N; exact H).
    injection H' as <- <- <-. split; [reflexivity|].
    exists []. repeat split. simpl; lia.
  - cbn [pull] in H. destruct (n =? 0)%N eqn:Hn.
    + injection H as <- <- <-. split; [reflexivity|].
      apply N.eqb_eq in Hn. exists []. repeat split; simpl; lia.
    + apply N.eqb_neq in Hn. destruct ev as [b|b|].
      * destruct (pull cap rest (N.pred n) fill) as [[r0 s0] f0] eqn:E.
        injection H as <- <- <-.
        destruct (IH _ _ _ _ _ E) as (Herr & got & Hout & Hlen & Hr).
        split; [exact Herr|].
        exists (b :: got). split; [simpl; now rewrite Hout|].
        split; [simpl List.length; lia|].
        destruct r0 as [d| |]; simpl.
        -- destruct Hr as [-> Hshort]. split; [reflexivity|].
           intros Hlt. apply Hshort. simpl List.length in Hlt. lia.
        -- exact Hr.
        -- exact Hr.
      * destruct (fill <? cap)%N eqn:Hroom.
        -- destruct (IH _ _ _ _ _ H) as (Herr & got & Hout & Hlen & Hr).
           split; [simpl; lia|]. exists got. repeat split; assumption.
        -- injection H as <- <- <-. split; [reflexivity|].
           apply N.ltb_ge in Hroom.
           exists []. repeat split; try (simpl; lia). now exists b, rest.
      * injection H as <- <- <-. split; [reflexivity|].
        exists []. repeat split. simpl; lia.
Qed.

(** With room for all the diagnostics the read is never stuck. *)
Lemma pull_not_blocked (cap : N) (script : list event) (n fill : N)
  (script' : list event) (fill' : N) :
  (fill + stderr_count script <= cap)%N ->
  pull cap script n fill <> (RBlocked, script', fill').
Proof.
  intros Hcap H.
  destruct (pull_account _ _ _ _ _ _ _ H) as (Herr & _ & _ & _ & (b & rest & ->) & Hfull).
  simpl in Herr. lia.
Qed.

(** Without a fault in the script no read raises. *)
Lemma pull_no_fault (cap : N) (script : list event) (n fill : N)
  (script' : list event) (fill' : N) :
  faultless script = true ->
  pull cap script n fill <> (RFail, script', fill').
Proof.
  intros Hok H.
  destruct (pull_account _ _ _ _ _ _ _ H) as (_ & _ & _ & _ & Hbad).
  congruence.
Qed.

Lemma pull_keeps_faultless (cap : N) (script : list event) :
  forall (n fill : N) (r : read_result) (script' : list event) (fill' : N),
  pull cap script n fill = (r, script', fill') ->
  faultless script = true -> faultless script' = true.
Proof.
  induction script as [|ev rest IH]; intros n fill r script' fill' H Hok.
  - simpl in H. destruct (n =? 0)%N; injection H as <- <- <-; reflexivity.
  - cbn [pull] in H. destruct (n =? 0)%N.
    + injection H as <- <- <-. exact Hok.
    + destruct ev as [b|b|]; simpl in Hok.
      * destruct (pull cap rest (N.pred n) fill) as [[r0 s0] f0] eqn:E.
        injection H as <- <- <-. now apply (IH _ _ _ _ _ E).
      * destruct (fill <? cap)%N.
        -- now apply (IH _ _ _ _ _ H).
        -- injection H as <- <- <-. exact Hok.
      * discriminate.
Qed.

(** The standard error pipe never holds more than its capacity. *)
Lemma pull_fill_le (cap : N) (script : list event) :
  forall (n fill : N) (r : read_result) (script' : list event) (fill' : N),
  pull cap script n fill = (r, script', fill') ->
  (fill <= cap)%N -> (fill' <= cap)%N.
Proof.
  induction script as [|ev rest IH]; intros n fill r script' fill' H Hle.
  - simpl in H. destruct (n =? 0)%N; injection H as _ _ <-; exact Hle.
  - cbn [pull] in H. destruct (n =? 0)%N.
    + injection H as _ _ <-. exact Hle.
    + destruct ev as [b|b|].
      * destruct (pull cap rest (N.pred n) fill) as [[r0 s0] f0] eqn:E.
        injection H as _ _ <-. exact (IH _ _ _ _ _ E Hle).
      * destruct (fill <? cap)%N eqn:Hroom.
        -- apply N.ltb_lt in Hroom. apply (IH _ _ _ _ _ H). lia.
        -- injection H as _ _ <-. exact Hle.
      * injection H as _ _ <-. exact Hle.
Qed.

End PipeFacts.

(** ** The generator and the server loop *)
Module StreamFacts.
Import App Generate Server Stmt.
Local Open Scope list_scope.

Lemma drive_unfold (m : machine) (client : nat) (w : world) (g : gen_state)
  (out : list (list byte)) :
  drive m client w g out =
  match next m w g with
  | (w', g', Yielded data) =>
      match client with
      | O => mkRun (fst (close w' g')) out ClientGone
      | S client' => drive m client' w' g' (out ++ [data])
      end
  | (w', g', StopIteration) => mkRun (fst (close w' g')) out Completed
  | (w', g', Raised e) => mkRun (fst (close w' g')) out (Errored e)
  | (w', g', Blocked) => mkRun w' out Hung
  end.
Proof. destruct client; reflexivity. Qed.

(** One turn of the loop when the world holds the one process of the
    generator. *)
Lemma loop_single (m : machine) (p : Enc.proc) (log : list (list string)) :
  loop m (mkWorld [p] log) 0 =
  let '(r, script', fill') :=
    Enc.pull (pipe_capacity m) (Enc.script p) CHUNK (Enc.err_fill p) in
  match r with
  | Enc.RData [] =>
      (mkWorld [Enc.mk (Enc.cmd p) script' fill' true] log,
       GenClosed, StopIteration)
  | Enc.RData data =>
      (mkWorld [Enc.mk (Enc.cmd p) script' fill' (Enc.terminated p)] log,
       GenSuspended 0, Yielded data)
  | Enc.RFail =>
      (mkWorld [Enc.mk (Enc.cmd p) script' fill' true] log,
       GenClosed, Raised OSError)
  | Enc.RBlocked =>
      (mkWorld [Enc.mk (Enc.cmd p) script' fill' (Enc.terminated p)] log,
       GenReading 0, Blocked)
  end.
Proof.
  unfold loop, stdout_read. cbn [nth_error procs spawn_log].
  destruct (Enc.pull _ _ _ _) as [[r script'] fill'].
  destruct r as [[|b data]| |]; reflexivity.
Qed.

(** Entering the generator launches the encoder and runs the loop. *)
Lemma drive_created (m : machine) (client : nat) (full_path : string)
  (script : list Enc.event) (out : list (list byte)) :
  encoder m (command full_path) = Some script ->
  drive m client empty_world (GenCreated full_path) out =
  drive m client
    (mkWorld [Enc.mk (command full_path) script 0 false] [command full_path])
    (GenSuspended 0) out.
Proof.
  intros H. rewrite !drive_unfold. unfold next, popen. rewrite H. reflexivity.
Qed.

Lemma drive_not_launched (m : machine) (client : nat) (full_path : string)
  (out : list (list byte)) :
  encoder m (command full_path) = None ->
  drive m client empty_world (GenCreated full_path) out =
  mkRun (mkWorld [] [command full_path]) out (Errored OSError).
Proof.
  intros H. rewrite drive_unfold. unfold next, popen. rewrite H. reflexivity.
Qed.

(** The process across a whole response: it stays the only one, keeps
    its command line, nothing leaves its standard error pipe, it has
    been terminated unless the response hangs, and the response does
    not hang when the diagnostics fit the pipe. *)
Lemma drive_process (m : machine) (client : nat) :
  forall (p : Enc.proc) (log : list (list string)) (out : list (list byte)),
  let r := drive m client (mkWorld [p] log) (GenSuspended 0) out in
  spawn_log (final r) = log
  /\ exists p',
       procs (final r) = [p']
       /\ Enc.cmd p' = Enc.cmd p
       /\ (Enc.err_fill p' + Enc.stderr_count (Enc.script p')
           = Enc.err_fill p + Enc.stderr_count (Enc.script p))%N
       /\ (how r <> Hung -> Enc.terminated p' = true)
       /\ (how r = Hung ->
           Enc.terminated p' = Enc.terminated p
           /\ (exists b rest, Enc.script p' = Enc.Err b :: rest)
           /\ (pipe_capacity m <= Enc.err_fill p')%N)
       /\ ((Enc.err_fill p + Enc.stderr_count (Enc.script p)
            <= pipe_capacity m)%N -> how r <> Hung).
Proof.
  induction client as [|client IH]; intros p log out r; subst r;
    rewrite drive_unfold; cbn [next]; rewrite loop_single;
    destruct (Enc.pull _ _ _ _) as [[res script'] fill'] eqn:Hpull;
    destruct (PipeFacts.pull_account _ _ _ _ _ _ _ Hpull)
      as (Herr & got & Hout & Hlen & Hres);
    destruct res as [[|b data]| |];
    cbn [final how spawn_log procs close fst terminate update];
    try (split; [reflexivity|]; eexists; split; [reflexivity|];
         cbn [Enc.cmd Enc.script Enc.err_fill Enc.terminated];
         split; [reflexivity|]; split; [exact Herr|];
         split; [reflexivity|]; split; discriminate).
  (* the read is stuck: no client left *)
  - split; [reflexivity|]. eexists. split; [reflexivity|].
    cbn [Enc.cmd Enc.script Enc.err_fill Enc.terminated].
    destruct Hres as [(b & rest & ->) Hfull].
    split; [reflexivity|]. split; [exact Herr|].
    split; [congruence|]. split.
    + intros _. split; [reflexivity|]. split; [now exists b, rest | exact Hfull].
    + intros Hcap _. cbn in Herr. lia.
  (* a chunk was yielded and the client takes it *)
  - destruct (IH (Enc.mk (Enc.cmd p) script' fill' (Enc.terminated p))
                log (out ++ [b :: data]))
      as (Hlog & p' & Hp' & Hcmd & Hacc & Hterm & Hhung & Hfit).
    cbn [Enc.cmd Enc.script Enc.err_fill Enc.terminated] in *.
    split; [exact Hlog|]. exists p'. split; [exact Hp'|].
    split; [exact Hcmd|]. split; [congruence|].
    split; [exact Hterm|]. split; [exact Hhung|].
    intros Hcap. apply Hfit. lia.
  (* the read is stuck *)
  - split; [reflexivity|]. eexists. split; [reflexivity|].
    cbn [Enc.cmd Enc.script Enc.err_fill Enc.terminated].
    destruct Hres as [(b & rest & ->) Hfull].
    split; [reflexivity|]. split; [exact Herr|].
    split; [congruence|]. split.
    + intros _. split; [reflexivity|]. split; [now exists b, rest | exact Hfull].
    + intros Hcap _. cbn in Herr. lia.
Qed.

Lemma chunk_positive : (0 < CHUNK)%N.
Proof. reflexivity. Qed.

Lemma full_but_last_head (c : list byte) (rest : list (list byte)) :
  full_but_last (c :: rest) -> (0 < chunk_len c)%N.
Proof.
  destruct rest; simpl.
  - intros [H _]; exact H.
  - intros [H _]. rewrite H. exact chunk_positive.
Qed.

(** The data across a whole response: what was sent, then at most one
    chunk that was read and not sent, then what the process still holds
    make up the encoder's output; every chunk sent but the last is a
    full one; a patient client of a sound encoder gets it all. *)
Lemma drive_data (m : machine) (client : nat) :
  forall (p : Enc.proc) (log : list (list string)) (out : list (list byte)),
  let r := drive m client (mkWorld [p] log) (GenSuspended 0) out in
  exists chunks lost p',
    sent r = out ++ chunks
    /\ procs (final r) = [p']
    /\ Enc.stdout_of (Enc.script p)
       = concat chunks ++ lost ++ Enc.stdout_of (Enc.script p')
    /\ (chunk_len lost <= CHUNK)%N
    /\ List.length chunks <= client
    /\ full_but_last chunks
    /\ (how r = Completed -> lost = [] /\ Enc.script p' = [])
    /\ (Enc.faultless (Enc.script p) = true ->
        (Enc.err_fill p + Enc.stderr_count (Enc.script p)
         <= pipe_capacity m)%N ->
        List.length (Enc.stdout_of (Enc.script p)) <= client ->
        how r = Completed).
Proof.
  induction client as [|client IH]; intros p log out r; subst r;
    rewrite drive_unfold; cbn [next]; rewrite loop_single;
    destruct (Enc.pull _ _ _ _) as [[res script'] fill'] eqn:Hpull;
    destruct (PipeFacts.pull_account _ _ _ _ _ _ _ Hpull)
      as (Herr & got & Hout & Hlen & Hres);
    destruct res as [[|b data]| |];
    cbn [final how sent spawn_log procs close fst terminate update].
  1, 5: (* the output has ended *)
    destruct Hres as [<- Hshort];
    exists [], [], (Enc.mk (Enc.cmd p) script' fill' true);
    cbn [Enc.script]; rewrite app_nil_r;
    (split; [reflexivity|]); (split; [reflexivity|]);
    (split; [exact Hout|]); (split; [cbn; lia|]);
    (split; [cbn; lia|]); (split; [exact I|]);
    (split; [intros _; split; [reflexivity | apply Hshort; exact chunk_positive]
            | reflexivity]).
  - (* a chunk was read and the client is gone *)
    destruct Hres as [<- _].
    eexists [], (b :: data), _. rewrite app_nil_r.
    split; [reflexivity|]. split; [reflexivity|].
    cbn [Enc.script]. split; [exact Hout|]. split; [exact Hlen|].
    split; [cbn; lia|]. split; [exact I|]. split; [discriminate|].
    intros _ _ Hshort. rewrite Hout in Hshort. cbn in Hshort. lia.
  - (* stuck *)
    destruct Hres as [(b & rest & ->) Hfull].
    eexists [], got, _. rewrite app_nil_r.
    split; [reflexivity|]. split; [reflexivity|].
    cbn [Enc.script]. split; [exact Hout|]. split; [exact Hlen|].
    split; [cbn; lia|]. split; [exact I|]. split; [discriminate|].
    intros _ Hcap _. cbn in Herr. lia.
  - (* fault *)
    eexists [], got, _. rewrite app_nil_r.
    split; [reflexivity|]. split; [reflexivity|].
    cbn [Enc.script]. split; [exact Hout|]. split; [exact Hlen|].
    split; [cbn; lia|]. split; [exact I|]. split; [discriminate|].
    intros Hok _ _. congruence.
  - (* a chunk was read and sent *)
    destruct Hres as [<- Hshort].
    destruct (IH (Enc.mk (Enc.cmd p) script' fill' (Enc.terminated p))
                log (out ++ [b :: data]))
      as (chunks & lost & p' & Hsent & Hp' & Hacc & Hlost & Hcount & Hfull
          & Hdone & Hall).
    cbn [Enc.cmd Enc.script Enc.err_fill Enc.terminated] in *.
    exists ((b :: data) :: chunks), lost, p'.
    split; [rewrite Hsent, <- app_assoc; reflexivity|].
    split; [exact Hp'|].
    split; [rewrite Hout, Hacc; cbn [concat]; now rewrite <- !app_assoc|].
    split; [exact Hlost|]. split; [cbn; lia|].
    split.
    + destruct chunks as [|c cs].
      * cbn [full_but_last]. unfold chunk_len.
        split; [cbn [List.length]; lia | exact Hlen].
      * split; [|exact Hfull].
        destruct (N.eq_dec (chunk_len (b :: data)) CHUNK) as [Heq|Hne];
          [exact Heq|].
        assert (Hs : script' = [])
          by (apply Hshort; unfold chunk_len in Hne; lia).
        subst script'. cbn in Hacc.
        pose proof (full_but_last_head _ _ Hfull) as Hpos.
        destruct c; [cbn in Hpos; lia | discriminate Hacc].
    + split; [exact Hdone|].
      intros Hok Hcap Hpatient. apply Hall.
      * exact (PipeFacts.pull_keeps_faultless _ _ _ _ _ _ _ Hpull Hok).
      * lia.
      * rewrite Hout in Hpatient. rewrite length_app in Hpatient.
        cbn [List.length] in Hpatient. lia.
  - (* stuck *)
    destruct Hres as [(b & rest & ->) Hfull].
    eexists [], got, _. rewrite app_nil_r.
    split; [reflexivity|]. split; [reflexivity|].
    cbn [Enc.script]. split; [exact Hout|]. split; [exact Hlen|].
    split; [cbn; lia|]. split; [exact I|]. split; [discriminate|].
    intros _ Hcap _. cbn in Herr. lia.
  - (* fault *)
    eexists [], got, _. rewrite app_nil_r.
    split; [reflexivity|]. split; [reflexivity|].
    cbn [Enc.script]. split; [exact Hout|]. split; [exact Hlen|].
    split; [cbn; lia|]. split; [exact I|]. split; [discriminate|].
    intros Hok _ _. congruence.
Qed.

Lemma nth_error_update (f : Enc.proc -> Enc.proc) (l : list Enc.proc) :
  forall pid, nth_error (update pid f l) pid = option_map f (nth_error l pid).
Proof.
  induction l as [|p l IH]; intros [|pid]; simpl; try reflexivity.
  apply IH.
Qed.

(** Both ways out of the [try] mark the process terminated. *)
Lemma terminate_marks (w : world) (pid : nat) (pr : Enc.proc) :
  nth_error (procs w) pid = Some pr ->
  exists pr', nth_error (procs (terminate w pid)) pid = Some pr'
              /\ Enc.terminated pr' = true.
Proof.
  intros H. unfold terminate. cbn [procs].
  rewrite nth_error_update, H. cbn. eexists. split; reflexivity.
Qed.

Lemma stdout_read_keeps (m : machine) (w w' : world) (pid : nat) (n : N)
  (pr : Enc.proc) (res : Enc.read_result) :
  nth_error (procs w) pid = Some pr ->
  stdout_read m w pid n = (res, w') ->
  exists pr', nth_error (procs w') pid = Some pr'.
Proof.
  intros H. unfold stdout_read. rewrite H.
  destruct (Enc.pull _ _ _ _) as [[r script'] fill'].
  intros E. injection E as <- <-. cbn [procs].
  rewrite nth_error_update, H. cbn. eexists; reflexivity.
Qed.

Lemma next_cleans_up (m : machine) (w w' : world) (pid : nat) (pr : Enc.proc)
  (o : outcome) :
  nth_error (procs w) pid = Some pr ->
  next m w (GenSuspended pid) = (w', GenClosed, o) ->
  exists pr', nth_error (procs w') pid = Some pr' /\ Enc.terminated pr' = true.
Proof.
  intros H. cbn [next]. unfold loop.
  destruct (stdout_read m w pid CHUNK) as [res w1] eqn:Hread.
  destruct (stdout_read_keeps _ _ _ _ _ _ _ H Hread) as [pr1 H1].
  destruct res as [[|b data]| |]; intros E; try discriminate E;
    injection E as <- _; exact (terminate_marks _ _ _ H1).
Qed.

Lemma close_cleans_up (w : world) (pid : nat) (pr : Enc.proc) :
  nth_error (procs w) pid = Some pr ->
  snd (close w (GenSuspended pid)) = GenClosed
  /\ exists pr', nth_error (procs (fst (close w (GenSuspended pid)))) pid
                 = Some pr'
                 /\ Enc.terminated pr' = true.
Proof.
  intros H. cbn [close fst snd]. split; [reflexivity|].
  exact (terminate_marks _ _ _ H).
Qed.

Lemma stream_opens (m : machine) (p : string) :
  Fs.isfile (disk m) (resolved p) = true ->
  stream m p =
  mkResponse 200 "video/mp4" [("Accept-Ranges", "bytes")%string]
    (Stream (GenCreated (resolved p))).
Proof.
  intros Hf. unfold stream. fold (resolved p).
  assert (He : Fs.exists_ (disk m) (resolved p) = true).
  { unfold Fs.isfile in Hf. unfold Fs.exists_.
    now destruct (Fs.stat (disk m) (resolved p)). }
  now rewrite He, Hf.
Qed.

Lemma stream_missing (m : machine) (p : string) :
  Fs.exists_ (disk m) (resolved p) = false
  \/ Fs.isfile (disk m) (resolved p) = false ->
  stream m p = text_response "File not found" 404.
Proof.
  intros [H | H]; unfold stream; fold (resolved p); rewrite H;
    [reflexivity | now rewrite orb_true_r].
Qed.

Lemma serve_stream (m : machine) (client : nat) (p : string) :
  Fs.isfile (disk m) (resolved p) = true ->
  serve m client (stream m p) =
  drive m client empty_world (GenCreated (resolved p)) [].
Proof. intros Hf. now rewrite (stream_opens m p Hf). Qed.

(** C2: when the response of [/stream] ends (the output is exhausted,
    a read raises, the encoder cannot be launched, or the client is
    gone), every process the request has spawned has been terminated;
    and whichever way the generator leaves its [try] block, by
    [StopIteration], by an exception or by [close()], its process is
    terminated on the way out. *)
Theorem encoder_terminated_when_response_ends (m : machine) (client : nat)
  (p : string) :
  let r := serve m client (stream m p) in
  (how r <> Hung -> Forall is_terminated (procs (final r)))
  /\ (forall (w : world) (pid : nat) (pr : Enc.proc),
        nth_error (procs w) pid = Some pr ->
        (forall w' o,
           next m w (GenSuspended pid) = (w', GenClosed, o) ->
           exists pr', nth_error (procs w') pid = Some pr'
                       /\ is_terminated pr')
        /\ snd (close w (GenSuspended pid)) = GenClosed
        /\ exists pr',
             nth_error (procs (fst (close w (GenSuspended pid)))) pid
             = Some pr'
             /\ is_terminated pr').
Proof.
  intros r. split.
  - subst r. unfold stream. fold (resolved p).
    destruct (negb (Fs.exists_ (disk m) (resolved p))
              || negb (Fs.isfile (disk m) (resolved p))).
    + intros _. constructor.
    + unfold serve. cbn [body].
      destruct (encoder m (command (resolved p))) as [script|] eqn:Henc.
      * rewrite (drive_created m client _ script [] Henc).
        destruct (drive_process m client
                    (Enc.mk (command (resolved p)) script 0 false)
                    [command (resolved p)] [])
          as (_ & p' & -> & _ & _ & Hterm & _).
        intros Hend. constructor; [exact (Hterm Hend) | constructor].
      * rewrite (drive_not_launched m client _ [] Henc). intros _. constructor.
  - intros w pid pr Hpr. split.
    + intros w' o Hnext. exact (next_cleans_up m w w' pid pr o Hpr Hnext).
    + exact (close_cleans_up w pid pr Hpr).
Qed.

Lemma encoder_terminated_when_response_ends_witness :
  how (serve Sample.machine_quiet 0
         (stream Sample.machine_quiet "Show/ep1.mp4")) = ClientGone
  /\ Forall is_terminated
       (procs (final (serve Sample.machine_quiet 0
                        (stream Sample.machine_quiet "Show/ep1.mp4")))).
Proof.
  split; [reflexivity|].
  apply (encoder_terminated_when_response_ends Sample.machine_quiet 0
           "Show/ep1.mp4").
  vm_compute. discriminate.
Defined.

(** C6: when the joined path does not exist or is no regular file,
    [/video] and [/stream] both answer 404, and sending the answer of
    [/stream] launches nothing: [Popen] is not called. *)
Theorem missing_source_is_not_found (m : machine) (req : request)
  (client : nat) (p : string) :
  Fs.exists_ (disk m) (resolved p) = false
  \/ Fs.isfile (disk m) (resolved p) = false ->
  video m req p = text_response "File not found" 404
  /\ stream m p = text_response "File not found" 404
  /\ status (video m req p) = 404%N
  /\ status (stream m p) = 404%N
  /\ procs (final (serve m client (stream m p))) = []
  /\ spawn_log (final (serve m client (stream m p))) = [].
Proof.
  intros H.
  assert (Hv : video m req p = text_response "File not found" 404).
  { destruct H as [H | H]; unfold video; fold (resolved p); rewrite H;
      [reflexivity | now rewrite orb_true_r]. }
  rewrite Hv, (stream_missing m p H). repeat split.
Qed.

Lemma missing_source_is_not_found_witness :
  Fs.exists_ (disk Sample.machine_quiet) (resolved "Show/ep2.mp4") = false
  /\ status (video Sample.machine_quiet Sample.plain_get "Show/ep2.mp4") = 404%N
  /\ status (stream Sample.machine_quiet "Show/ep2.mp4") = 404%N
  /\ spawn_log (final (serve Sample.machine_quiet 3
                         (stream Sample.machine_quiet "Show/ep2.mp4"))) = [].
Proof.
  split; [reflexivity|].
  destruct (missing_source_is_not_found Sample.machine_quiet Sample.plain_get
              3 "Show/ep2.mp4" (or_introl eq_refl))
    as (_ & _ & Hv & Hs & _ & Hlog).
  repeat split; assumption.
Defined.

(** C7, as the claim has it, fails: an encoder that reports more
    progress than the pipe holds (here three bytes before each byte of
    output, and a pipe of four) is stopped at a write to the full
    standard error pipe; the response hangs with nothing sent and the
    process is left alive. *)
Lemma chatty_encoder_blocks_on_stderr :
  let m := Sample.machine_chatty in
  let r := serve m 10 (stream m "Show/ep1.mp4") in
  how r = Hung
  /\ sent r = []
  /\ exists pr,
       procs (final r) = [pr]
       /\ Enc.blocked_on_stderr (pipe_capacity m) pr = true
       /\ Enc.terminated pr = false
       /\ Enc.err_fill pr = pipe_capacity m.
Proof.
  cbv zeta. split; [reflexivity|]. split; [reflexivity|].
  eexists. split; [reflexivity|]. repeat split.
Qed.

(** A client that keeps reading from an encoder that does not fail sees
    the response end normally, which takes room for all the diagnostics,
    or hang. *)
Lemma drive_patient (m : machine) (client : nat) :
  forall (p : Enc.proc) (log : list (list string)) (out : list (list byte)),
  Enc.faultless (Enc.script p) = true ->
  List.length (Enc.stdout_of (Enc.script p)) <= client ->
  (Enc.err_fill p <= pipe_capacity m)%N ->
  let r := drive m client (mkWorld [p] log) (GenSuspended 0) out in
  how r = Hung
  \/ (how r = Completed
      /\ (Enc.err_fill p + Enc.stderr_count (Enc.script p)
          <= pipe_capacity m)%N).
Proof.
  induction client as [|client IH]; intros p log out Hok Hpatient Hfill r;
    subst r; rewrite drive_unfold; cbn [next]; rewrite loop_single;
    destruct (Enc.pull _ _ _ _) as [[res script'] fill'] eqn:Hpull;
    pose proof (PipeFacts.pull_fill_le _ _ _ _ _ _ _ Hpull Hfill) as Hfill';
    destruct (PipeFacts.pull_account _ _ _ _ _ _ _ Hpull)
      as (Herr & got & Hout & Hlen & Hres);
    destruct res as [[|b data]| |]; cbn [how];
    try (now left);
    try (exfalso; congruence).
  - right. split; [reflexivity|]. destruct Hres as [_ Hshort].
    rewrite (Hshort chunk_positive) in Herr. cbn in Herr. lia.
  - exfalso. destruct Hres as [<- _]. rewrite Hout in Hpatient.
    cbn in Hpatient. lia.
  - right. split; [reflexivity|]. destruct Hres as [_ Hshort].
    rewrite (Hshort chunk_positive) in Herr. cbn in Herr. lia.
  - destruct Hres as [<- _].
    destruct (IH (Enc.mk (Enc.cmd p) script' fill' (Enc.terminated p))
                log (out ++ [b :: data])) as [Hh | [Hc Hroom]].
    + exact (PipeFacts.pull_keeps_faultless _ _ _ _ _ _ _ Hpull Hok).
    + cbn [Enc.script]. rewrite Hout, length_app in Hpatient.
      cbn [List.length] in Hpatient. lia.
    + exact Hfill'.
    + now left.
    + right. split; [exact Hc|].
      cbn [Enc.script Enc.err_fill] in Hroom. lia.
Qed.

(** C7, amended: [/stream] never reads the encoder's standard error:
    every byte the encoder has written there is still in the pipe when
    the response is over.  The response hangs exactly when the encoder
    is stopped at a write to that full pipe.  This never happens when
    all the diagnostics of the encoder fit the capacity of the pipe, and
    it always happens when they do not fit, the encoder does not fail
    and the client keeps reading. *)
Theorem stderr_is_never_read (m : machine) (client : nat) (p : string)
  (script : list Enc.event) :
  Fs.isfile (disk m) (resolved p) = true ->
  encoder m (command (resolved p)) = Some script ->
  let r := serve m client (stream m p) in
  exists pr,
    procs (final r) = [pr]
    /\ (Enc.err_fill pr + Enc.stderr_count (Enc.script pr)
        = Enc.stderr_count script)%N
    /\ (how r = Hung <-> Enc.blocked_on_stderr (pipe_capacity m) pr = true)
    /\ ((Enc.stderr_count script <= pipe_capacity m)%N ->
        how r <> Hung
        /\ Enc.blocked_on_stderr (pipe_capacity m) pr = false)
    /\ (Enc.faultless script = true ->
        List.length (Enc.stdout_of script) <= client ->
        (pipe_capacity m < Enc.stderr_count script)%N ->
        how r = Hung
        /\ Enc.blocked_on_stderr (pipe_capacity m) pr = true).
Proof.
  intros Hf Henc r. subst r.
  rewrite (serve_stream m client p Hf), (drive_created m client _ script [] Henc).
  destruct (drive_process m client
              (Enc.mk (command (resolved p)) script 0 false)
              [command (resolved p)] [])
    as (_ & pr & Hpr & _ & Hacc & Hterm & Hhung & Hfit).
  cbn [Enc.script Enc.err_fill Enc.terminated] in *.
  exists pr. split; [exact Hpr|]. split; [exact Hacc|].
  assert (Hiff : how (drive m client
                        (mkWorld [Enc.mk (command (resolved p)) script 0 false]
                           [command (resolved p)]) (GenSuspended 0) [])
                 = Hung
                 <-> Enc.blocked_on_stderr (pipe_capacity m) pr = true).
  { unfold Enc.blocked_on_stderr. split.
    - intros Hh. destruct (Hhung Hh) as (Ht & (b & rest & Hs) & Hfull).
      rewrite Ht, Hs. cbn. now apply N.leb_le.
    - intros Hb. apply andb_true_iff in Hb as [Hb _].
      apply negb_true_iff in Hb.
      destruct (how _) eqn:Hhow; try reflexivity;
        (assert (Ht : Enc.terminated pr = true)
           by (apply Hterm; discriminate)); congruence. }
  split; [exact Hiff|]. split.
  - intros Hcap.
    assert (Hnot : how (drive m client
                          (mkWorld [Enc.mk (command (resolved p)) script 0 false]
                             [command (resolved p)]) (GenSuspended 0) [])
                   <> Hung) by (apply Hfit; lia).
    split; [exact Hnot|].
    destruct (Enc.blocked_on_stderr (pipe_capacity m) pr) eqn:Hb;
      [|reflexivity].
    exfalso. apply Hnot. now apply Hiff.
  - intros Hok Hpatient Hover.
    destruct (drive_patient m client
                (Enc.mk (command (resolved p)) script 0 false)
                [command (resolved p)] [] Hok Hpatient (N.le_0_l _))
      as [Hh | [_ Hroom]].
    + split; [exact Hh | now apply Hiff].
    + cbn [Enc.script Enc.err_fill] in Hroom. lia.
Qed.

Lemma stderr_is_never_read_witness :
  Enc.stderr_count [Enc.Err "a"%byte; Enc.Out "x"%byte;
                    Enc.Err "b"%byte; Enc.Out "y"%byte] = 2%N
  /\ how (serve Edge.machine_murmur 10
            (stream Edge.machine_murmur "Show/ep1.mp4")) <> Hung
  /\ (pipe_capacity Sample.machine_chatty
      < Enc.stderr_count [Enc.Err "a"%byte; Enc.Err "b"%byte; Enc.Err "c"%byte;
                          Enc.Out "x"%byte; Enc.Err "d"%byte; Enc.Err "e"%byte;
                          Enc.Err "f"%byte; Enc.Out "y"%byte])%N
  /\ how (serve Sample.machine_chatty 10
            (stream Sample.machine_chatty "Show/ep1.mp4")) = Hung.
Proof.
  split; [reflexivity|]. split.
  - destruct (stderr_is_never_read Edge.machine_murmur 10 "Show/ep1.mp4" _
                eq_refl eq_refl) as (pr & _ & _ & _ & Hfit & _).
    apply Hfit. vm_compute. discriminate.
  - split; [reflexivity|].
    destruct (stderr_is_never_read Sample.machine_chatty 10 "Show/ep1.mp4" _
                eq_refl eq_refl) as (pr & _ & _ & _ & _ & Hover).
    apply Hover.
    + reflexivity.
    + vm_compute. repeat constructor.
    + reflexivity.
Defined.

(** C8: a [/stream] request for a regular file calls [Popen] exactly
    once; the command line is the encoder binary, [-i], the joined
    source path and a fixed tail (H.264 video, AAC audio, preset
    [ultrafast], 500k and 96k, fragmented MP4, output to [-], the
    standard output); nothing of the request but the path enters it.
    When the binary launches, the request owns exactly one process,
    with that command line. *)
Theorem one_encoder_with_fixed_command (m : machine) (client : nat)
  (p : string) :
  Fs.isfile (disk m) (resolved p) = true ->
  let r := serve m client (stream m p) in
  command (resolved p) = FFMPEG :: "-i"%string :: resolved p :: fixed_args
  /\ spawn_log (final r) = [command (resolved p)]
  /\ (forall script,
        encoder m (command (resolved p)) = Some script ->
        exists pr, procs (final r) = [pr]
                   /\ Enc.cmd pr = command (resolved p))
  /\ (encoder m (command (resolved p)) = None -> procs (final r) = []).
Proof.
  intros Hf r. subst r. rewrite (serve_stream m client p Hf).
  split; [reflexivity|].
  destruct (encoder m (command (resolved p))) as [script|] eqn:Henc.
  - rewrite (drive_created m client _ script [] Henc).
    destruct (drive_process m client
                (Enc.mk (command (resolved p)) script 0 false)
                [command (resolved p)] [])
      as (Hlog & pr & Hpr & Hcmd & _).
    split; [exact Hlog|]. split; [|discriminate].
    intros script' _. exists pr. split; [exact Hpr | exact Hcmd].
  - rewrite (drive_not_launched m client _ [] Henc). cbn [final spawn_log procs].
    split; [reflexivity|]. split; [discriminate | reflexivity].
Qed.

Lemma one_encoder_with_fixed_command_witness :
  Fs.isfile (disk Sample.machine_quiet) (resolved "Show/ep1.mp4") = true
  /\ spawn_log (final (serve Sample.machine_quiet 2
                         (stream Sample.machine_quiet "Show/ep1.mp4")))
     = [command "D:\TV\Show/ep1.mp4"].
Proof.
  split; [reflexivity|].
  apply (one_encoder_with_fixed_command Sample.machine_quiet 2 "Show/ep1.mp4").
  reflexivity.
Defined.

(** Each item the generator yields is the result of one read of
    [CHUNK] bytes, handed over as it is. *)
Lemma next_yields_one_read (m : machine) (p : Enc.proc)
  (log : list (list string)) (w' : world) (g' : gen_state) (data : list byte) :
  next m (mkWorld [p] log) (GenSuspended 0) = (w', g', Yielded data) ->
  exists script' fill',
    Enc.pull (pipe_capacity m) (Enc.script p) CHUNK (Enc.err_fill p)
    = (Enc.RData data, script', fill')
    /\ data <> []
    /\ w' = mkWorld [Enc.mk (Enc.cmd p) script' fill' (Enc.terminated p)] log
    /\ g' = GenSuspended 0.
Proof.
  cbn [next]. rewrite loop_single.
  destruct (Enc.pull _ _ _ _) as [[res script'] fill'].
  destruct res as [[|b d]| |]; intros E; try discriminate E.
  injection E as <- <- <-. exists script', fill'.
  repeat split. discriminate.
Qed.

(** C9: the answer of [/stream] for a regular file has content type
    [video/mp4] and advertises [Accept-Ranges: bytes]; its body is the
    encoder's standard output cut into chunks of [CHUNK] = 1 MiB in
    order: every chunk sent but the last is a full one, each is the
    result of one read and is sent before the next read, so that at any
    time at most one chunk has been read and not sent; the body ends
    when a read returns nothing, and a client that keeps reading from
    an encoder that does not fail gets the whole output. *)
Theorem stream_body_is_chunked (m : machine) (client : nat) (p : string)
  (script : list Enc.event) :
  Fs.isfile (disk m) (resolved p) = true ->
  encoder m (command (resolved p)) = Some script ->
  let resp := stream m p in
  let r := serve m client resp in
  CHUNK = 1048576%N
  /\ content_type resp = "video/mp4"%string
  /\ In ("Accept-Ranges", "bytes")%string (headers resp)
  /\ (exists lost rest,
        Enc.stdout_of script = concat (sent r) ++ lost ++ rest
        /\ (chunk_len lost <= CHUNK)%N
        /\ (how r = Completed -> lost = [] /\ rest = []))
  /\ List.length (sent r) <= client
  /\ full_but_last (sent r)
  /\ (forall pr log w' g' data,
        next m (mkWorld [pr] log) (GenSuspended 0) = (w', g', Yielded data) ->
        exists script' fill',
          Enc.pull (pipe_capacity m) (Enc.script pr) CHUNK (Enc.err_fill pr)
          = (Enc.RData data, script', fill'))
  /\ (Enc.faultless script = true ->
      (Enc.stderr_count script <= pipe_capacity m)%N ->
      List.length (Enc.stdout_of script) <= client ->
      how r = Completed /\ concat (sent r) = Enc.stdout_of script).
Proof.
  intros Hf Henc resp r. subst r resp.
  rewrite (serve_stream m client p Hf), (stream_opens m p Hf).
  rewrite (drive_created m client _ script [] Henc).
  destruct (drive_data m client
              (Enc.mk (command (resolved p)) script 0 false)
              [command (resolved p)] [])
    as (chunks & lost & p' & Hsent & _ & Hacc & Hlost & Hcount & Hfull
        & Hdone & Hall).
  cbn [Enc.script Enc.err_fill app] in *.
  rewrite Hsent.
  split; [reflexivity|]. split; [reflexivity|].
  split; [left; reflexivity|].
  split.
  { exists lost, (Enc.stdout_of (Enc.script p')).
    split; [exact Hacc|]. split; [exact Hlost|].
    intros Hc. destruct (Hdone Hc) as [-> ->]. now split. }
  split; [exact Hcount|]. split; [exact Hfull|].
  split.
  { intros pr log w' g' data Hnext.
    destruct (next_yields_one_read m pr log w' g' data Hnext)
      as (script' & fill' & Hpull & _).
    now exists script', fill'. }
  intros Hok Hcap Hpatient.
  assert (Hc : how (drive m client
                      (mkWorld [Enc.mk (command (resolved p)) script 0 false]
                         [command (resolved p)]) (GenSuspended 0) [])
               = Completed)
    by (apply Hall; [exact Hok | lia | exact Hpatient]).
  split; [exact Hc|].
  destruct (Hdone Hc) as [Hl Hs]. rewrite Hacc, Hl, Hs. cbn.
  now rewrite app_nil_r.
Qed.

Lemma stream_body_is_chunked_witness :
  Fs.isfile (disk Sample.machine_quiet) (resolved "Show/ep1.mp4") = true
  /\ how (serve Sample.machine_quiet 10
            (stream Sample.machine_quiet "Show/ep1.mp4")) = Completed
  /\ concat (sent (serve Sample.machine_quiet 10
                     (stream Sample.machine_quiet "Show/ep1.mp4")))
     = Sample.bytes_of "hello".
Proof.
  split; [reflexivity|].
  destruct (stream_body_is_chunked Sample.machine_quiet 10 "Show/ep1.mp4"
              (List.map Enc.Out (Sample.bytes_of "hello")) eq_refl eq_refl)
    as (_ & _ & _ & _ & _ & _ & _ & Hall).
  apply Hall.
  - reflexivity.
  - vm_compute. discriminate.
  - vm_compute. repeat constructor.
Defined.

End StreamFacts.


(** ** The thumbnail generator *)
Module ThumbFacts.
Import Thumbs.

(** The blacklist adds nothing to the rule on the first character: a
    folder is skipped exactly when its name starts with [!]. *)
Theorem skip_is_bang_prefix (folder_name : string) :
  should_skip_folder folder_name = String.prefix "!" folder_name.
Proof.
  unfold should_skip_folder, SKIP_FOLDERS. cbn [existsb].
  destruct (String.eqb_spec folder_name "!Web Series") as [-> | _].
  - reflexivity.
  - cbn [orb]. now destruct (String.prefix "!" folder_name).
Qed.

Lemma bump_known (key : string) (stats : list (string * N)) :
  In key (List.map fst stats) -> exists stats', bump key stats = Some stats'.
Proof.
  induction stats as [|[k n] rest IH]; intros H; [contradiction|].
  cbn [bump]. destruct (String.eqb_spec k key) as [_ | Hne].
  - eexists; reflexivity.
  - destruct H as [H | H]; [contradiction|].
    destruct (IH H) as [stats' ->]. eexists; reflexivity.
Qed.

Lemma bump_adds_one (key : string) (stats stats' : list (string * N)) :
  bump key stats = Some stats' ->
  total stats' = (total stats + 1)%N
  /\ List.map fst stats' = List.map fst stats
  /\ In key (List.map fst stats).
Proof.
  revert stats'; induction stats as [|[k n] rest IH]; intros stats' H;
    [discriminate|].
  cbn [bump] in H. destruct (String.eqb_spec k key) as [-> | Hne].
  - injection H as <-. cbn. repeat split; [lia | now left].
  - destruct (bump key rest) as [rest'|]; [|discriminate].
    injection H as <-. destruct (IH rest' eq_refl) as (Ht & Hk & Hin).
    cbn. rewrite Ht, Hk. repeat split; [lia | now right].
Qed.

Lemma bump_count (key other : string) (stats stats' : list (string * N)) :
  bump key stats = Some stats' ->
  count other stats' =
  if other =? key then (count other stats + 1)%N else count other stats.
Proof.
  unfold count.
  revert stats'; induction stats as [|[k n] rest IH]; intros stats' H;
    [discriminate|].
  cbn [bump] in H. destruct (String.eqb_spec k key) as [-> | Hne].
  - injection H as <-. cbn [Fs.assoc].
    rewrite (String.eqb_sym other key).
    destruct (key =? other); [lia | reflexivity].
  - destruct (bump key rest) as [rest'|]; [|discriminate].
    injection H as <-. cbn [Fs.assoc].
    destruct (String.eqb_spec k other) as [-> | Hko].
    + destruct (String.eqb_spec other key); [congruence | reflexivity].
    + exact (IH rest' eq_refl).
Qed.

Section Methods.

Variable number : Type.
Variable is_zero : number -> bool.
Variable outside : Type.
Variable clean_show_name : string -> string.
Variable search_tvmaze_show :
  generator -> outside -> string
  -> (exc + (json number * option string)) * outside.
Variable download_and_resize_poster :
  generator -> outside * Fs.t -> json number -> string
  -> bool * (outside * Fs.t).

Variable denied : Fs.t -> string -> bool.

(** [e] is an exception that the search has raised. *)
Let raised_by_search (self : generator) (e : exc) : Prop :=
  exists out show_name out',
    search_tvmaze_show self out show_name = (inl e, out').

Let process := process_show_folder number is_zero outside clean_show_name
                 search_tvmaze_show download_and_resize_poster.
Let all := process_all number is_zero outside clean_show_name
             search_tvmaze_show download_and_resize_poster.
Let run_it := run number is_zero outside clean_show_name
                search_tvmaze_show download_and_resize_poster denied.

(** After [.get('image', {}).get('medium')] has gone through, the show
    is a dictionary and its other [.get] calls go through as well. *)
Lemma found_line_fails_with_type_error (show_data : json number) (e : exc) :
  (exists fields, show_data = JDict fields) ->
  found_line show_data = inl e -> e = TypeError.
Proof.
  intros [fields ->]. unfold found_line. cbn [get].
  destruct (match Fs.assoc "premiered" fields with
            | Some x => x
            | None => JStr "Unknown year"
            end); cbn; intros H; try discriminate H; now injection H as <-.
Qed.

(** What one folder can come to: one of the seven counters, an
    exception of the search, or, in verbose mode only, a [TypeError]. *)
Lemma process_outcome (self : generator) (st st' : outside * Fs.t)
  (folder_path folder_name : string) (r : exc + string) :
  process self st folder_path folder_name = (r, st') ->
  match r with
  | inr result => In result (List.map fst stats0)
  | inl e => (e = TypeError /\ verbose self = true) \/ raised_by_search self e
  end.
Proof.
  unfold process, process_show_folder.
  destruct (should_skip_folder folder_name);
    [intros H; injection H as <- _; cbn; tauto|].
  destruct (dry_run self); [intros H; injection H as <- _; cbn; tauto|].
  destruct (Fs.exists_ _ _); [intros H; injection H as <- _; cbn; tauto|].
  destruct (search_tvmaze_show _ _ _) as [[e|[show_data error]] out1] eqn:Hs;
    [intros H; injection H as <- _; right;
     now exists (fst st), (clean_show_name folder_name), out1|].
  destruct (is_error error); [intros H; injection H as <- _; cbn; tauto|].
  destruct show_data as [|b|n|s|items|fields];
    try (intros H; injection H as <- _; cbn; tauto).
  cbn [get].
  destruct (get _ "medium" JNull) as [e|poster_path];
    [intros H; injection H as <- _; cbn; tauto|].
  destruct (negb (truthy is_zero poster_path));
    [intros H; injection H as <- _; cbn; tauto|].
  destruct (verbose self) eqn:Hv.
  - destruct (found_line (JDict fields)) as [e|line] eqn:Hline.
    + intros H; injection H as <- _. left. split; [|reflexivity].
      apply (found_line_fails_with_type_error (JDict fields) e); [|exact Hline].
      now exists fields.
    + destruct (download_and_resize_poster _ _ _ _) as [[] st2];
        intros H; injection H as <- _; cbn; tauto.
  - destruct (download_and_resize_poster _ _ _ _) as [[] st2];
      intros H; injection H as <- _; cbn; tauto.
Qed.

Lemma all_outcome (self : generator) (folders : list (string * string)) :
  forall (st st' : outside * Fs.t) (stats : list (string * N))
         (r : exc + list (string * N)),
  List.map fst stats = List.map fst stats0 ->
  all self st folders stats = (r, st') ->
  match r with
  | inr stats' =>
      total stats' = (total stats + N.of_nat (List.length folders))%N
      /\ List.map fst stats' = List.map fst stats0
  | inl e => (e = TypeError /\ verbose self = true) \/ raised_by_search self e
  end.
Proof.
  induction folders as [|[folder_path folder_name] rest IH];
    intros st st' stats r Hkeys H; cbn [all process_all] in H.
  - injection H as <- _. cbn. split; [lia | exact Hkeys].
  - unfold all in H. cbn [process_all] in H.
    fold process in H. fold all in H.
    destruct (process self st folder_path folder_name) as [[e|result] st1]
      eqn:Hp; pose proof (process_outcome _ _ _ _ _ _ Hp) as Hout.
    + injection H as <- _. exact Hout.
    + rewrite <- Hkeys in Hout.
      destruct (bump_known result stats Hout) as [stats1 Hb].
      unfold process in Hp. rewrite Hb in H.
      destruct (bump_adds_one _ _ _ Hb) as (Ht & Hk & _).
      pose proof (IH st1 st' stats1 r (eq_trans Hk Hkeys) H) as Hrest.
      destruct r as [e|stats']; [exact Hrest|].
      destruct Hrest as [Htot Hks]. split; [|exact Hks].
      rewrite Htot, Ht. cbn [List.length]. lia.
Qed.

(** The tally of [run] cannot fail: every status that
    [process_show_folder] returns is one of the seven keys of [stats], so
    [stats[result] += 1] never raises; when [run] returns, the counters
    add up to the number of sub-folders of the target directory; and an
    exception that escapes [run] is the one of listing a target that is
    not a directory, one that the search has raised, or, with
    [--verbose] only, a [TypeError]. *)
Theorem run_tally (self : generator) (st : outside * Fs.t) :
  (forall e,
     fst (run_it self st) = Uncaught e ->
     e = NotADirectoryError
     \/ (e = TypeError /\ verbose self = true)
     \/ exists out show_name out',
          search_tvmaze_show self out show_name = (inl e, out'))
  /\ (forall stats,
        fst (run_it self st) = Returned stats ->
        List.map fst stats = List.map fst stats0
        /\ exists items,
             Fs.listdir (snd st) (target_dir self) = Some items
             /\ total stats
                = N.of_nat (List.length
                              (folders_of (snd st) (target_dir self) items))).
Proof.
  unfold run_it, run.
  destruct (negb (Fs.exists_ (snd st) (target_dir self)));
    [split; intros x H; discriminate H|].
  destruct (Fs.listdir (snd st) (target_dir self)) as [items|];
    [|split; intros x H; [injection H as <-; now left | discriminate H]].
  destruct (denied (snd st) (target_dir self));
    [split; intros x H; discriminate H|].
  destruct (folders_of (snd st) (target_dir self) items) as [|f rest] eqn:Hf;
    [split; intros x H; discriminate H|].
  fold all.
  destruct (all self st (f :: rest) stats0) as [[e|stats] st'] eqn:Ha;
    pose proof (all_outcome self (f :: rest) st st' stats0 _ eq_refl Ha) as Hout;
    cbn [fst].
  - split; [|intros x H; discriminate H].
    intros x H. injection H as <-. right. exact Hout.
  - destruct Hout as [Htot Hkeys]. split; [intros x H; discriminate H|].
    intros stats' H. injection H as <-. split; [exact Hkeys|].
    exists items. split; [reflexivity|].
    change (total stats0) with 0%N in Htot. rewrite Htot, Hf. lia.
Qed.

Lemma process_dry (self : generator) (st : outside * Fs.t)
  (folder_path folder_name : string) :
  dry_run self = true ->
  process self st folder_path folder_name =
  (inr (if should_skip_folder folder_name
        then "skipped_blacklist" else "dry-run"), st).
Proof.
  intros Hd. unfold process, process_show_folder. rewrite Hd.
  now destruct (should_skip_folder folder_name).
Qed.

Lemma all_dry (self : generator) (folders : list (string * string)) :
  dry_run self = true ->
  forall (st : outside * Fs.t) (stats : list (string * N)),
  List.map fst stats = List.map fst stats0 ->
  exists stats',
    all self st folders stats = (inr stats', st)
    /\ (count "skipped_blacklist" stats' + count "dry-run" stats'
        = count "skipped_blacklist" stats + count "dry-run" stats
          + N.of_nat (List.length folders))%N
    /\ (forall key, key <> "skipped_blacklist" -> key <> "dry-run" ->
        count key stats' = count key stats).
Proof.
  intros Hd.
  induction folders as [|[folder_path folder_name] rest IH];
    intros st stats Hkeys.
  - exists stats. cbn. repeat split. lia.
  - unfold all. cbn [process_all]. fold process. fold all.
    rewrite (process_dry self st folder_path folder_name Hd).
    set (result := if should_skip_folder folder_name
                   then "skipped_blacklist" else "dry-run").
    assert (Hres : result = "skipped_blacklist" \/ result = "dry-run")
      by (subst result; destruct (should_skip_folder folder_name); auto).
    assert (Hin : In result (List.map fst stats)).
    { rewrite Hkeys. destruct Hres as [-> | ->]; cbn; tauto. }
    destruct (bump_known result stats Hin) as [stats1 Hb]. rewrite Hb.
    destruct (bump_adds_one _ _ _ Hb) as (_ & Hk & _).
    destruct (IH st stats1 (eq_trans Hk Hkeys)) as (stats' & Hall & Hsum & Hother).
    exists stats'. split; [exact Hall|]. split.
    + rewrite Hsum.
      rewrite (bump_count result "skipped_blacklist" _ _ Hb).
      rewrite (bump_count result "dry-run" _ _ Hb).
      cbn [List.length].
      destruct Hres as [-> | ->]; cbn; lia.
    + intros key H1 H2. rewrite (Hother key H1 H2).
      rewrite (bump_count result key _ _ Hb).
      destruct (String.eqb_spec key result) as [-> | _]; [|reflexivity].
      destruct Hres; contradiction.
Qed.

(** A dry run touches nothing: [run] leaves the file system and the
    world outside as they were, never searches or downloads, and counts
    every sub-folder as [skipped_blacklist] or [dry-run], also the ones
    that already have an [index.jpg]. *)
Theorem dry_run_touches_nothing (self : generator) (st : outside * Fs.t) :
  dry_run self = true ->
  snd (run_it self st) = st
  /\ forall stats,
       fst (run_it self st) = Returned stats ->
       (forall key, key <> "skipped_blacklist" -> key <> "dry-run" ->
                    count key stats = 0%N)
       /\ exists items,
            Fs.listdir (snd st) (target_dir self) = Some items
            /\ (count "skipped_blacklist" stats + count "dry-run" stats)%N
               = N.of_nat (List.length
                             (folders_of (snd st) (target_dir self) items)).
Proof.
  intros Hd. unfold run_it, run.
  destruct (negb (Fs.exists_ (snd st) (target_dir self)));
    [split; [reflexivity | discriminate]|].
  destruct (Fs.listdir (snd st) (target_dir self)) as [items|];
    [|split; [reflexivity | discriminate]].
  destruct (denied (snd st) (target_dir self));
    [split; [reflexivity | discriminate]|].
  destruct (folders_of (snd st) (target_dir self) items) as [|f rest] eqn:Hf;
    [split; [reflexivity | discriminate]|].
  fold all.
  destruct (all_dry self (f :: rest) Hd st stats0 eq_refl)
    as (stats' & -> & Hsum & Hother).
  cbn [fst snd]. split; [reflexivity|].
  intros stats H. injection H as <-. split.
  - intros key H1 H2. rewrite (Hother key H1 H2).
    unfold count, stats0. cbn [Fs.assoc].
    repeat match goal with
           | |- context [?a =? key] => destruct (a =? key)
           end; reflexivity.
  - exists items. split; [reflexivity|]. rewrite Hsum, Hf.
    change (count "skipped_blacklist" stats0) with 0%N.
    change (count "dry-run" stats0) with 0%N. lia.
Qed.

(** A folder that is blacklisted, met in a dry run, or that already
    holds an [index.jpg] is left alone: no search, no download, the
    state is as before, and the status is the one of the first of these
    three tests that applies. *)
Theorem settled_folder_is_left_alone (self : generator) (st : outside * Fs.t)
  (folder_path folder_name : string) :
  should_skip_folder folder_name = true
  \/ dry_run self = true
  \/ Fs.exists_ (snd st) (NtPath.join folder_path ["index.jpg"]) = true ->
  process self st folder_path folder_name =
  (inr (if should_skip_folder folder_name then "skipped_blacklist"
        else if dry_run self then "dry-run" else "exists"), st).
Proof.
  unfold process, process_show_folder.
  destruct (should_skip_folder folder_name); [reflexivity|].
  destruct (dry_run self); [reflexivity|].
  intros [H | [H | H]]; try discriminate H. now rewrite H.
Qed.

(** A show without an [image] key has no poster; a show whose [image]
    is [null] makes [.get('medium')] raise, and the folder is counted as
    a failed search instead.  Neither case reaches the download. *)
Theorem null_image_is_a_failed_search (self : generator) (st : outside * Fs.t)
  (folder_path folder_name : string) (fields : list (string * json number))
  (error : option string) (out1 : outside) :
  should_skip_folder folder_name = false ->
  dry_run self = false ->
  Fs.exists_ (snd st) (NtPath.join folder_path ["index.jpg"]) = false ->
  search_tvmaze_show self (fst st) (clean_show_name folder_name)
  = (inr (JDict fields, error), out1) ->
  is_error error = false ->
  (Fs.assoc "image" fields = None ->
   process self st folder_path folder_name = (inr "no_poster", (out1, snd st)))
  /\ (Fs.assoc "image" fields = Some JNull ->
      process self st folder_path folder_name
      = (inr "search_failed", (out1, snd st))).
Proof.
  intros Hs Hd He Hsearch Herr.
  unfold process, process_show_folder.
  rewrite Hs, Hd, He, Hsearch, Herr. cbn [get].
  split; intros Himg; rewrite Himg; reflexivity.
Qed.

(** With [--verbose], a show that has a poster and a [premiered] field
    that is [null] (or anything but a string or a list) stops the whole
    run: slicing the field for the progress line raises [TypeError],
    which nothing catches, before the download is tried.  Without
    [--verbose] the same folder goes on to the download. *)
Theorem null_premiere_stops_verbose_run (self : generator)
  (st : outside * Fs.t) (folder_path folder_name : string)
  (fields image : list (string * json number)) (poster : json number)
  (error : option string) (out1 : outside) :
  should_skip_folder folder_name = false ->
  dry_run self = false ->
  Fs.exists_ (snd st) (NtPath.join folder_path ["index.jpg"]) = false ->
  search_tvmaze_show self (fst st) (clean_show_name folder_name)
  = (inr (JDict fields, error), out1) ->
  is_error error = false ->
  Fs.assoc "image" fields = Some (JDict image) ->
  Fs.assoc "medium" image = Some poster ->
  truthy is_zero poster = true ->
  Fs.assoc "premiered" fields = Some JNull ->
  (verbose self = true ->
   process self st folder_path folder_name = (inl TypeError, (out1, snd st)))
  /\ (verbose self = false ->
      process self st folder_path folder_name
      = (let '(success, st2) :=
           download_and_resize_poster self (out1, snd st) poster
             (NtPath.join folder_path ["index.jpg"]) in
         (inr (if success then "success" else "download_failed"), st2))).
Proof.
  intros Hs Hd He Hsearch Herr Himg Hmed Hposter Hprem.
  unfold process, process_show_folder.
  rewrite Hs, Hd, He, Hsearch, Herr. cbn [get]. rewrite Himg. cbn [get].
  rewrite Hmed, Hposter. cbn [negb].
  split; intros Hv; rewrite Hv; [|reflexivity].
  unfold found_line. cbn [get]. rewrite Hprem. reflexivity.
Qed.

(** [run] leaves through [sys.exit(1)] exactly when the target does not
    exist or is a directory whose listing is refused, and through
    [sys.exit(0)] exactly when the target is a directory that can be
    listed and has no sub-directories; in both cases nothing has been
    searched, downloaded or written. *)
Theorem run_exit_codes (self : generator) (st : outside * Fs.t) :
  (fst (run_it self st) = SysExit 1
   <-> Fs.exists_ (snd st) (target_dir self) = false
       \/ (Fs.isdir (snd st) (target_dir self) = true
           /\ denied (snd st) (target_dir self) = true))
  /\ (fst (run_it self st) = SysExit 0
      <-> exists items,
            Fs.listdir (snd st) (target_dir self) = Some items
            /\ denied (snd st) (target_dir self) = false
            /\ folders_of (snd st) (target_dir self) items = [])
  /\ (forall code, fst (run_it self st) = SysExit code ->
                   snd (run_it self st) = st).
Proof.
  unfold run_it, run, Fs.exists_, Fs.listdir, Fs.isdir.
  destruct (Fs.stat (snd st) (target_dir self)) as [[content|entries]|];
    cbn [negb fst snd].
  - split; [split; [discriminate | intros [H | [H _]]; discriminate H]|].
    split; [|discriminate].
    split; [discriminate|]. intros (items & H & _). discriminate H.
  - destruct (denied (snd st) (target_dir self)) eqn:Hden; cbn [fst snd].
    + split; [split; [intros _; right; now split | reflexivity]|].
      split; [|reflexivity].
      split; [discriminate|]. intros (items & _ & H & _). discriminate H.
    + destruct (folders_of (snd st) (target_dir self) (List.map fst entries))
        as [|f rest] eqn:Hf.
      * split; [split; [discriminate | intros [H | [_ H]]; discriminate H]|].
        split; [|reflexivity].
        split; [|reflexivity]. intros _. now exists (List.map fst entries).
      * fold all. destruct (all self st (f :: rest) stats0) as [[e|stats] st'];
          cbn [fst snd];
          (split; [split; [discriminate | intros [H | [_ H]]; discriminate H]|]);
          (split; [|discriminate]);
          (split; [discriminate|]); intros (items & H & _ & Hnone);
          injection H as <-; congruence.
  - split; [split; [intros _; now left | reflexivity]|]. split; [|reflexivity].
    split; [discriminate|]. intros (items & H & _). discriminate H.
Qed.

End Methods.

End ThumbFacts.


(** ** More on strings *)
Module SplitFacts.
Import Str Words.

Lemma append_empty (s : string) : s ++ "" = s.
Proof. induction s as [|c s IH]; simpl; [reflexivity | now rewrite IH]. Qed.

Lemma append_assoc (a b c : string) : (a ++ b) ++ c = a ++ (b ++ c).
Proof. induction a as [|x a IH]; simpl; [reflexivity | now rewrite IH]. Qed.

Lemma rev_string_onto (s acc : string) :
  rev_string acc s = rev_string "" s ++ acc.
Proof.
  revert acc; induction s as [|c s IH]; intros acc; simpl; [reflexivity|].
  rewrite (IH (String c acc)), (IH (String c "")).
  now rewrite append_assoc.
Qed.

Lemma rev_string_twice (s a b : string) :
  rev_string a (rev_string b s) = rev_string (s ++ a) b.
Proof.
  revert a b; induction s as [|c s IH]; intros a b; simpl; [reflexivity|].
  now rewrite IH.
Qed.

Lemma split_by_nonempty (f : ascii -> bool) (s cur : string) :
  split_by f cur s <> [].
Proof.
  revert cur; induction s as [|c s IH]; intros cur; simpl; [discriminate|].
  destruct (f c); [discriminate | apply IH].
Qed.

(** Cutting at a separator that follows [a]: the pieces of [a], then
    the pieces of what follows. *)
Lemma split_by_app (f : ascii -> bool) (c : ascii) (a b cur : string) :
  f c = true ->
  split_by f cur (a ++ String c b)
  = (split_by f cur a ++ split_by f "" b)%list.
Proof.
  intros Hc. revert cur; induction a as [|x a IH]; intros cur; simpl.
  - now rewrite Hc.
  - destruct (f x); [now rewrite IH | apply IH].
Qed.

Lemma split_by_whole (f : ascii -> bool) (s cur : string) :
  none f s -> split_by f cur s = [rev_string "" cur ++ s].
Proof.
  revert cur; induction s as [|c s IH]; intros cur H; simpl.
  - now rewrite append_empty.
  - destruct H as [Hc H]. rewrite Hc, (IH _ H). simpl.
    rewrite (rev_string_onto cur (String c "")), append_assoc. reflexivity.
Qed.

Lemma contains_slash_none (s : string) :
  contains "/" s = false -> none (Ascii.eqb "/") s.
Proof.
  induction s as [|c s IH]; intros H; cbn [none]; [exact I|].
  cbn [contains] in H. apply orb_false_iff in H as [Hp Hc].
  split; [|now apply IH].
  cbn [String.prefix] in Hp.
  destruct (Ascii.eqb_spec "/" c) as [<- | Hne]; [|reflexivity].
  cbn in Hp. destruct s; discriminate Hp.
Qed.

Lemma contains_slash_app (a b : string) : contains "/" (a ++ "/" ++ b) = true.
Proof.
  induction a as [|c a IH].
  - cbn. now destruct b.
  - change (String c a ++ "/" ++ b) with (String c (a ++ "/" ++ b)).
    cbn [contains]. rewrite IH. apply orb_true_r.
Qed.

(** Joining the pieces with the character they were cut at gives the
    string back. *)
Lemma join_split_by (s cur : string) :
  join "/" (split_by (Ascii.eqb "/") cur s) = rev_string "" cur ++ s.
Proof.
  revert cur; induction s as [|c s IH]; intros cur.
  - simpl. now rewrite append_empty.
  - cbn [split_by]. destruct (Ascii.eqb_spec "/" c) as [<- | Hne].
    + pose proof (split_by_nonempty (Ascii.eqb "/") s "") as Hne.
      pose proof (IH "") as Hrest.
      destruct (split_by (Ascii.eqb "/") "" s) as [|x rest]; [contradiction|].
      cbn [join]. cbn [join] in Hrest. rewrite Hrest. reflexivity.
    + rewrite IH. simpl.
      rewrite (rev_string_onto cur (String c "")), append_assoc. reflexivity.
Qed.

Lemma join_split (s : string) : join "/" (split "/" s) = s.
Proof. unfold split. now rewrite join_split_by. Qed.

Lemma lower_upper_ascii (c : ascii) :
  lower_ascii (upper_ascii c) = lower_ascii c.
Proof. destruct c as [[] [] [] [] [] [] [] []]; reflexivity. Qed.

Lemma lower_upper (s : string) : lower (upper s) = lower s.
Proof.
  induction s as [|c s IH]; simpl; [reflexivity|].
  unfold lower, upper in *. simpl. now rewrite lower_upper_ascii, IH.
Qed.

Lemma lower_lower_ascii (c : ascii) :
  lower_ascii (lower_ascii c) = lower_ascii c.
Proof. destruct c as [[] [] [] [] [] [] [] []]; reflexivity. Qed.

Lemma lower_lower (s : string) : lower (lower s) = lower s.
Proof.
  induction s as [|c s IH]; simpl; [reflexivity|].
  unfold lower in *. simpl. now rewrite lower_lower_ascii, IH.
Qed.

End SplitFacts.

(** ** More on the routes *)
Module AppFacts.
Import App Stmt Words.

Lemma sepfree_none (s : string) :
  sepfree s = true -> none NtPath.in_seps s.
Proof.
  induction s as [|c s IH]; cbn [sepfree none]; intros H; [exact I|].
  apply andb_true_iff in H as [Hc H]. apply negb_true_iff in Hc.
  split; [exact Hc | now apply IH].
Qed.

Lemma sepfree_no_slash (s : string) :
  sepfree s = true -> Str.contains "/" s = false.
Proof.
  induction s as [|c s IH]; cbn [sepfree]; intros H; [reflexivity|].
  apply andb_true_iff in H as [Hc H]. apply negb_true_iff in Hc.
  cbn [Str.contains]. rewrite (IH H), orb_false_r.
  cbn [String.prefix]. destruct (ascii_dec "/" c) as [<- | _];
    [discriminate Hc | reflexivity].
Qed.

(** The parent link: for a name without a slash, the parent of
    [dir/name] is [dir], and a path without a slash has the empty
    parent, the top of the library. *)
Theorem parent_of_child (dir name : string) :
  Str.contains "/" name = false ->
  parent_of (dir ++ "/" ++ name) = dir /\ parent_of name = "".
Proof.
  intros H. split.
  - unfold parent_of. rewrite SplitFacts.contains_slash_app.
    unfold Str.split.
    change (dir ++ "/" ++ name) with (dir ++ String "/" name).
    rewrite (SplitFacts.split_by_app (Ascii.eqb "/") "/" dir name "" eq_refl).
    rewrite (SplitFacts.split_by_whole (Ascii.eqb "/") name ""
               (SplitFacts.contains_slash_none name H)).
    rewrite removelast_last. apply SplitFacts.join_split_by.
  - unfold parent_of. now rewrite H.
Qed.

Lemma parent_of_child_witness :
  Str.contains "/" "ep1.mp4" = false
  /\ parent_of "Season 1/Show/ep1.mp4" = "Season 1/Show".
Proof.
  split; [reflexivity|].
  apply (parent_of_child "Season 1/Show" "ep1.mp4"). reflexivity.
Defined.

(** The player page of a file [dir/name] reached by a plain path: the
    file name shown is [name], and the link back leads to [dir], the
    folder whose listing links to the file. *)
Theorem play_names_file_and_folder (m : machine) (dir name : string) :
  plain (dir ++ "/" ++ name) = true ->
  sepfree name = true ->
  Fs.isfile (disk m) (resolved (dir ++ "/" ++ name)) = true ->
  play m (dir ++ "/" ++ name) =
  render_template "player.html"
    [("filename", VStr name);
     ("filepath", VStr (dir ++ "/" ++ name));
     ("back_path", VStr dir)].
Proof.
  intros Hplain Hname Hfile.
  assert (Hexists : Fs.exists_ (disk m) (resolved (dir ++ "/" ++ name)) = true).
  { unfold Fs.isfile in Hfile. unfold Fs.exists_.
    now destruct (Fs.stat (disk m) (resolved (dir ++ "/" ++ name))). }
  unfold play. fold (resolved (dir ++ "/" ++ name)).
  rewrite Hexists, Hfile. cbn [negb orb].
  destruct (parent_of_child dir name (sepfree_no_slash name Hname)) as [-> _].
  rewrite (PathFacts.join_plain _ Hplain).
  assert (Hbase : NtPath.basename ("D:\TV\" ++ dir ++ "/" ++ name) = name).
  { unfold NtPath.basename.
    change (NtPath.splitdrive ("D:\TV\" ++ dir ++ "/" ++ name))
      with ("D:", "\TV\" ++ dir ++ "/" ++ name).
    cbn [snd].
    change ("\TV\" ++ dir ++ "/" ++ name)
      with (("\TV\" ++ dir) ++ String "/" name).
    rewrite (SplitFacts.split_by_app NtPath.in_seps "/" ("\TV\" ++ dir) name ""
               eq_refl).
    rewrite (SplitFacts.split_by_whole NtPath.in_seps name ""
               (sepfree_none name Hname)).
    apply last_last. }
  now rewrite Hbase.
Qed.

Lemma play_names_file_and_folder_witness :
  plain "Show/ep1.mp4" = true
  /\ play Sample.machine_quiet "Show/ep1.mp4" =
     render_template "player.html"
       [("filename", VStr "ep1.mp4");
        ("filepath", VStr "Show/ep1.mp4");
        ("back_path", VStr "Show")].
Proof.
  split; [reflexivity|].
  apply (play_names_file_and_folder Sample.machine_quiet "Show" "ep1.mp4");
    reflexivity.
Defined.

Lemma upper_ascii_only (s : string) :
  ascii_only s = true -> ascii_only (Str.upper s) = true.
Proof.
  induction s as [|c s IH]; cbn [ascii_only]; intros H; [reflexivity|].
  apply andb_true_iff in H as [Hc H].
  change (Str.upper (String c s))
    with (String (Str.upper_ascii c) (Str.upper s)).
  cbn [ascii_only]. rewrite (IH H), andb_true_r.
  revert Hc. destruct c as [[] [] [] [] [] [] [] []]; intros Hc;
    try discriminate Hc; reflexivity.
Qed.

(** For a file name of ASCII characters: the file counts as a video
    exactly when its name, in lower case, ends with one of the nine
    extensions, and writing the name in upper or in lower case (which
    keeps it ASCII) never changes whether it counts. *)
Theorem is_video_ignores_case (f : string) :
  ascii_only f = true ->
  (is_video f = true
   <-> exists ext pre, In ext VIDEO_EXTS /\ Str.lower f = pre ++ ext)
  /\ ascii_only (Str.upper f) = true
  /\ is_video (Str.upper f) = is_video f
  /\ is_video (Str.lower f) = is_video f.
Proof.
  intros Hascii. split; [|split; [|split]].
  - unfold is_video. rewrite existsb_exists. split.
    + intros (ext & Hin & He). apply StrFacts.endswith_spec in He as [pre He].
      now exists ext, pre.
    + intros (ext & pre & Hin & He). exists ext. split; [exact Hin|].
      apply StrFacts.endswith_spec. now exists pre.
  - now apply upper_ascii_only.
  - unfold is_video. now rewrite SplitFacts.lower_upper.
  - unfold is_video. now rewrite SplitFacts.lower_lower.
Qed.

Lemma is_video_ignores_case_witness :
  ascii_only "ep1.mkv" = true
  /\ is_video "EP1.MKV" = is_video "ep1.mkv".
Proof.
  split; [reflexivity|].
  apply (is_video_ignores_case "ep1.mkv"). reflexivity.
Defined.

(** Without a drive or UNC prefix of its own, a request path never
    leaves drive [D:], whatever [..] segments or separators it has: the
    joined path always resolves on the volume of the library. *)
Theorem no_drive_stays_on_library_volume (fs : Fs.t) (p : string) :
  fst (NtPath.splitdrive p) = "" ->
  fst (Fs.locate fs (resolved p)) = "D:".
Proof.
  intros H. apply PathFacts.splitdrive_no_drive in H.
  unfold resolved, NtPath.join, BASE_DIR. simpl fold_left.
  change (NtPath.splitdrive "D:\TV") with ("D:", "\TV").
  unfold NtPath.join_step. rewrite H.
  destruct (NtPath.starts_with_sep p) eqn:Hs.
  - cbn [Str.is_empty negb orb].
    rewrite Hs. cbn [negb andb].
    rewrite andb_false_r. cbn [andb].
    reflexivity.
  - reflexivity.
Qed.

Lemma no_drive_stays_on_library_volume_witness :
  fst (NtPath.splitdrive "Show/../../../etc/passwd") = ""
  /\ fst (Fs.locate Sample.disk (resolved "Show/../../../etc/passwd")) = "D:".
Proof.
  split; [reflexivity|].
  apply (no_drive_stays_on_library_volume Sample.disk). reflexivity.
Defined.

End AppFacts.

(** ** The folder listing *)
Module ListingFacts.
Import App Stmt Words.
Local Open Scope list_scope.

(** What the thumbnail loop of [browse] comes to: with no folder it
    fails on the unbound [d]; otherwise, unless a listing fails, it
    yields one entry, for the last folder, with [has_thumb] false. *)
Lemma thumb_loop_result (m : machine) (subpath : string)
  (dirs files : list string) :
  match thumb_loop m subpath dirs files with
  | inr l =>
      dirs <> []
      /\ l = [VDict [("name", VStr (List.last dirs ""))%string;
                     ("has_thumb", VBool false)%string]]
  | inl e => (e = UnboundLocalError /\ dirs = []) \/ e = OSError
  end.
Proof.
  unfold thumb_loop.
  match goal with |- context [fold_left ?f _ _] => set (step := f) end.
  assert (Hinl : forall l e, fold_left step l (inl e) = inl e)
    by (induction l as [|d l IH]; intros e; [reflexivity | apply IH]).
  assert (Hstep : forall acc d,
            step (inr acc) d = inl OSError
            \/ exists files' h, step (inr acc) d = inr (Some d, files', h)).
  { intros [[d0 fs0] h0] d. subst step. cbv beta iota.
    destruct (Fs.exists_ _ _); [|right; eauto].
    destruct (Fs.listdir _ _); [right; eauto | now left]. }
  assert (Hfold : forall l acc,
            fold_left step l (inr acc) = inl OSError
            \/ exists files' h,
                 fold_left step l (inr acc)
                 = inr (match l with
                        | [] => fst (fst acc)
                        | _ => Some (List.last l ""%string)
                        end, files', h)).
  { induction l as [|d l IH]; intros [[d0 fs0] h0].
    - right. exists fs0, h0. reflexivity.
    - cbn [fold_left]. destruct (Hstep (d0, fs0, h0) d) as [-> | (f1 & h1 & ->)].
      + left. apply Hinl.
      + destruct (IH (Some d, f1, h1)) as [-> | (f2 & h2 & ->)];
          [now left|]. right. exists f2, h2.
        destruct l as [|d' l']; reflexivity. }
  destruct (Hfold dirs (None, files, None)) as [-> | (f & h & ->)];
    [now right|].
  destruct dirs as [|d l]; cbn [fst].
  - left. now split.
  - split; [discriminate | reflexivity].
Qed.

Lemma listdir_is_directory (fs : Fs.t) (path : string) (items : list string) :
  Fs.listdir fs path = Some items ->
  Fs.exists_ fs path = true /\ Fs.isfile fs path = false.
Proof.
  unfold Fs.listdir, Fs.exists_, Fs.isfile.
  destruct (Fs.stat fs path) as [[c|es]|]; intros H; try discriminate.
  now split.
Qed.

Lemma sent_file_has_no_template (m : machine) (req : request)
  (path mime name : string) (ctx : list (string * value)) :
  body (dispatch (send_file m req path mime)) <> Template name ctx.
Proof.
  unfold send_file.
  destruct (Fs.read_file (disk m) path); [|discriminate].
  destruct (range req) as [[first last]|]; [|discriminate].
  destruct (_ =? _)%N; [discriminate|].
  destruct (_ && _)%bool; discriminate.
Qed.

(** Whenever [/browse] renders a listing, its [dirs] hold exactly one
    folder, the last of the sub-folders in sorted order, and that folder
    is never marked as having a thumbnail. *)
Theorem browse_lists_one_folder (m : machine) (req : request) (p name : string)
  (ctx : list (string * value)) :
  body (browse m req p) = Template name ctx ->
  name = "index.html"%string
  /\ exists items,
       Fs.listdir (disk m) (resolved p) = Some items
       /\ let dirs :=
            sorted (filter (fun item =>
                      Fs.isdir (disk m) (NtPath.join (resolved p) [item]))
                      items) in
          dirs <> []
          /\ Fs.assoc "dirs" ctx
             = Some (VList [VDict [("name", VStr (List.last dirs ""))%string;
                                   ("has_thumb", VBool false)%string]]).
Proof.
  unfold browse, browse_view. fold (resolved p).
  destruct (negb (Fs.exists_ (disk m) (resolved p))); [discriminate|].
  destruct (Fs.isfile (disk m) (resolved p));
    [intros H; now apply sent_file_has_no_template in H|].
  destruct (Fs.listdir (disk m) (resolved p)) as [items|]; [|discriminate].
  change (Str.contains "ux" (Str.lower template_folder)) with true.
  cbv iota.
  match goal with
  | |- context [thumb_loop m p ?d ?f] =>
      pose proof (thumb_loop_result m p d f) as Hloop;
      destruct (thumb_loop m p d f) as [e|l]
  end.
  - destruct e; discriminate.
  - destruct Hloop as [Hne ->]. cbn [dispatch render_template body].
    intros H. injection H as <- <-. split; [reflexivity|].
    exists items. split; [reflexivity|]. split; [exact Hne | reflexivity].
Qed.

Lemma browse_lists_one_folder_witness :
  exists ctx,
    body (browse Sample.machine_quiet Sample.plain_get ".")
    = Template "index.html" ctx
    /\ Fs.assoc "dirs" ctx
       = Some (VList [VDict [("name", VStr "Show")%string;
                             ("has_thumb", VBool false)%string]]).
Proof.
  eexists. split; [reflexivity|].
  destruct (browse_lists_one_folder Sample.machine_quiet Sample.plain_get "."
              _ _ eq_refl) as (_ & items & Hitems & _ & Hdirs).
  injection Hitems as <-. exact Hdirs.
Defined.

(** Browsing a directory that has no sub-directory (an empty folder, or
    a season folder that holds only files) is answered 500: the loop
    over the folders does not run and the statement after it reads its
    unbound variable. *)
Theorem browse_without_subfolders_fails (m : machine) (req : request)
  (p : string) (items : list string) :
  Fs.listdir (disk m) (resolved p) = Some items ->
  (forall item, In item items ->
                Fs.isdir (disk m) (NtPath.join (resolved p) [item]) = false) ->
  browse m req p = handle_exception UnboundLocalError
  /\ status (browse m req p) = 500%N.
Proof.
  intros Hlist Hnone.
  destruct (listdir_is_directory _ _ _ Hlist) as [He Hf].
  assert (Hb : browse m req p = handle_exception UnboundLocalError).
  { unfold browse, browse_view. fold (resolved p).
    rewrite He, Hf, Hlist. cbn [negb].
    assert (Hdirs : filter (fun item =>
                      Fs.isdir (disk m) (NtPath.join (resolved p) [item])) items
                    = []).
    { clear Hlist. induction items as [|x xs IH]; [reflexivity|].
      cbn [filter]. rewrite (Hnone x (or_introl eq_refl)).
      apply IH. intros item Hin. apply Hnone. now right. }
    rewrite Hdirs. reflexivity. }
  rewrite Hb. now split.
Qed.

Lemma browse_without_subfolders_fails_witness :
  Fs.listdir (disk Sample.machine_quiet) (resolved "Show")
  = Some ["ep1.mp4"; "index.jpg"]%string
  /\ status (browse Sample.machine_quiet Sample.plain_get "Show") = 500%N.
Proof.
  split; [reflexivity|].
  apply (browse_without_subfolders_fails Sample.machine_quiet Sample.plain_get
           "Show" ["ep1.mp4"; "index.jpg"]%string eq_refl).
  intros item [<- | [<- | []]]; reflexivity.
Defined.

Lemma insert_sorted_in (x y : string) (l : list string) :
  In y (insert_sorted x l) <-> y = x \/ In y l.
Proof.
  induction l as [|z l IH]; cbn [insert_sorted].
  - cbn. intuition congruence.
  - destruct (String.leb x z); cbn [In]; [intuition congruence|].
    rewrite IH. intuition congruence.
Qed.

Lemma sorted_in (y : string) (l : list string) : In y (sorted l) <-> In y l.
Proof.
  unfold sorted. induction l as [|x l IH]; cbn [fold_right In]; [tauto|].
  rewrite insert_sorted_in, IH. intuition congruence.
Qed.

(** A rendered listing shows every regular file of the folder in the
    right place: a file with a video extension among [videos], with a
    link to [/browse/<folder>/<file>], and not among [other_files]; any
    other file among [other_files]. *)
Theorem browse_lists_every_file (m : machine) (req : request) (p name : string)
  (ctx : list (string * value)) (items : list string) (f : string) :
  body (browse m req p) = Template name ctx ->
  Fs.listdir (disk m) (resolved p) = Some items ->
  In f items ->
  Fs.isfile (disk m) (NtPath.join (resolved p) [f]) = true ->
  exists videos others,
    Fs.assoc "videos" ctx = Some (VList videos)
    /\ Fs.assoc "other_files" ctx = Some (VList others)
    /\ if is_video f
       then In (VDict [("name", VStr f)%string;
                       ("href",
                        VStr ("/browse/" ++
                              (if negb (Str.is_empty p)
                               then p ++ "/" ++ f else f)))%string])
               videos
            /\ ~ In (VStr f) others
       else In (VStr f) others.
Proof.
  unfold browse, browse_view. fold (resolved p).
  destruct (negb (Fs.exists_ (disk m) (resolved p))); [discriminate|].
  destruct (Fs.isfile (disk m) (resolved p));
    [intros H; now apply sent_file_has_no_template in H|].
  intros Hbody Hlist Hin Hfile. rewrite Hlist in Hbody.
  change (Str.contains "ux" (Str.lower template_folder)) with true in Hbody.
  cbv iota in Hbody.
  match type of Hbody with
  | context [thumb_loop m p ?d ?fs] =>
      destruct (thumb_loop m p d fs) as [e|l]
  end; [destruct e; discriminate Hbody|].
  cbn [dispatch render_template body] in Hbody. injection Hbody as <- <-.
  eexists. eexists. split; [reflexivity|]. split; [reflexivity|].
  assert (Hfiles : In f (sorted (filter (fun item =>
                      Fs.isfile (disk m) (NtPath.join (resolved p) [item]))
                      items))).
  { apply sorted_in, filter_In. now split. }
  destruct (is_video f) eqn:Hv.
  - split.
    + apply in_map_iff. exists f. split; [reflexivity|].
      apply sorted_in, filter_In. now split.
    + intros Hbad. apply in_map_iff in Hbad as (x & Hx & Hxin).
      injection Hx as ->. apply sorted_in, filter_In in Hxin as [_ Hxin].
      rewrite Hv in Hxin. discriminate Hxin.
  - apply in_map_iff. exists f. split; [reflexivity|].
    apply sorted_in, filter_In. split; [exact Hfiles|]. now rewrite Hv.
Qed.

Lemma browse_lists_every_file_witness :
  exists ctx others,
    body (browse Sample.machine_quiet Sample.plain_get ".")
    = Template "index.html" ctx
    /\ Fs.assoc "other_files" ctx = Some (VList others)
    /\ In (VStr "index.jpg") others.
Proof.
  eexists.
  destruct (browse_lists_every_file Sample.machine_quiet Sample.plain_get "."
              _ _ ["Show"; "index.jpg"]%string "index.jpg"%string
              eq_refl eq_refl (or_intror (or_introl eq_refl)) eq_refl)
    as (videos & others & _ & Hothers & Hin).
  exists others. split; [reflexivity|]. split; [exact Hothers | exact Hin].
Defined.

End ListingFacts.

(** ** The sample run of the thumbnail generator *)
Module ThumbRuns.
Import Thumbs ThumbSample.

Lemma run_tally_witness :
  fst (run_with for_real (0, library))
  = Returned [("success", 0%N); ("exists", 1%N); ("skipped_blacklist", 1%N);
              ("search_failed", 0%N); ("no_poster", 0%N);
              ("download_failed", 1%N); ("dry-run", 0%N)]
  /\ total [("success", 0%N); ("exists", 1%N); ("skipped_blacklist", 1%N);
            ("search_failed", 0%N); ("no_poster", 0%N);
            ("download_failed", 1%N); ("dry-run", 0%N)] = 3%N.
Proof.
  split; [reflexivity|].
  destruct (ThumbFacts.run_tally N is_zero nat clean search download refused
              for_real (0, library)) as (_ & Hsum).
  destruct (Hsum _ eq_refl) as (_ & items & Hitems & Htotal).
  injection Hitems as <-. exact Htotal.
Defined.

Lemma dry_run_touches_nothing_witness :
  dry_run rehearsal = true
  /\ snd (run_with rehearsal (0, library)) = (0, library).
Proof.
  split; [reflexivity|].
  apply (ThumbFacts.dry_run_touches_nothing N is_zero nat clean search download
           refused rehearsal (0, library)).
  reflexivity.
Defined.

Lemma settled_folder_is_left_alone_witness :
  Fs.exists_ library (NtPath.join "D:\TV\Castle" ["index.jpg"]) = true
  /\ process for_real (0, library) "D:\TV\Castle" "Castle"
     = (inr "exists", (0, library)).
Proof.
  split; [reflexivity|].
  apply (ThumbFacts.settled_folder_is_left_alone N is_zero nat clean search
           download for_real (0, library) "D:\TV\Castle" "Castle").
  right; right; reflexivity.
Defined.

Lemma null_image_is_a_failed_search_witness :
  process for_real (0, library) "D:\TV\Sherlock" "Sherlock"
  = (inr "search_failed", (1, library)).
Proof.
  apply (ThumbFacts.null_image_is_a_failed_search N is_zero nat clean search
           download for_real (0, library) "D:\TV\Sherlock" "Sherlock"
           [("name", JStr "Sherlock"); ("image", JNull)] None 1);
    reflexivity.
Defined.

Lemma null_premiere_stops_verbose_run_witness :
  verbose chatty_real = true
  /\ process chatty_real (0, library) "D:\TV\Suits" "Suits"
     = (inl TypeError, (1, library)).
Proof.
  split; [reflexivity|].
  apply (ThumbFacts.null_premiere_stops_verbose_run N is_zero nat clean search
           download chatty_real (0, library) "D:\TV\Suits" "Suits"
           [("name", JStr "Suits");
            ("image", JDict [("medium", JStr "http://img/p.jpg")]);
            ("premiered", JNull)]
           [("medium", JStr "http://img/p.jpg")]
           (JStr "http://img/p.jpg") None 1);
    reflexivity.
Defined.

Lemma run_exit_codes_witness :
  Fs.isdir library "D:\Locked" = true
  /\ refused library "D:\Locked" = true
  /\ fst (run_with (mkGenerator "D:\Locked" false false 300) (0, library))
     = SysExit 1
  /\ Fs.exists_ library "D:\Nope" = false
  /\ fst (run_with (mkGenerator "D:\Nope" false false 300) (0, library))
     = SysExit 1.
Proof.
  split; [reflexivity|]. split; [reflexivity|].
  split.
  - apply (ThumbFacts.run_exit_codes N is_zero nat clean search download
             refused (mkGenerator "D:\Locked" false false 300) (0, library)).
    right. split; reflexivity.
  - split; [reflexivity|].
    apply (ThumbFacts.run_exit_codes N is_zero nat clean search download
             refused (mkGenerator "D:\Nope" false false 300) (0, library)).
    left. reflexivity.
Defined.

End ThumbRuns.

(** ** Which location the routes work on *)
Module ConfinementFacts.
Import App Stmt Words Generate Server.
Local Open Scope list_scope.

Lemma join_relative (p : string) :
  Str.is_empty (fst (NtPath.splitdrive p)) = true ->
  NtPath.starts_with_sep p = false ->
  resolved p = ("D:\TV\" ++ p)%string.
Proof.
  intros Hd Hs.
  assert (Hsplit : NtPath.splitdrive p = (""%string, p)).
  { apply PathFacts.splitdrive_no_drive.
    now destruct (fst (NtPath.splitdrive p)). }
  unfold resolved, NtPath.join, BASE_DIR. simpl fold_left.
  change (NtPath.splitdrive "D:\TV") with ("D:"%string, "\TV"%string).
  unfold NtPath.join_step. rewrite Hsplit, Hs. reflexivity.
Qed.

(** Normalising segments that never step above the starting point keeps
    what lies under it. *)
Lemma normalise_descend (segs : list string) :
  forall (ext base : list string) (d : nat),
  descend (List.length ext) segs = Some d ->
  exists ext', List.length ext' = d
               /\ Fs.normalise (ext ++ base) segs = rev base ++ ext'.
Proof.
  induction segs as [|s rest IH]; intros ext base d H;
    cbn [descend Fs.normalise] in *.
  - injection H as <-. exists (rev ext). split; [apply length_rev|].
    apply rev_app_distr.
  - destruct ((s =? "") || (s =? "."))%string; [now apply IH|].
    destruct (s =? "..")%string.
    + destruct ext as [|x ext]; [discriminate H|].
      cbn [List.length] in H. cbn [app tl]. now apply IH.
    + apply (IH (s :: ext) base d). exact H.
Qed.

Lemma reach_inside (fs : Fs.t) (p : string) (d : nat) :
  reach p = Some d ->
  exists below, List.length below = d
                /\ Fs.locate fs (resolved p) = ("D:"%string, "TV"%string :: below).
Proof.
  unfold reach.
  destruct (Str.is_empty (fst (NtPath.splitdrive p))) eqn:Hd; [|discriminate].
  destruct (NtPath.starts_with_sep p) eqn:Hs; [discriminate|].
  cbn [negb andb]. intros H.
  rewrite (join_relative p Hd Hs).
  assert (Hloc : Fs.locate fs ("D:\TV\" ++ p)
                 = ("D:"%string, Fs.normalise ["TV"%string] (Fs.segments p)))
    by reflexivity.
  rewrite Hloc.
  destruct (normalise_descend (Fs.segments p) [] ["TV"%string] d H)
    as (below & Hlen & Hnorm).
  cbn [app] in Hnorm. rewrite Hnorm. now exists below.
Qed.

(** What [send_file] sends of a regular file is a span of its bytes,
    unless the range cannot be satisfied. *)
Lemma send_file_span (m : machine) (req : request) (path mime : string)
  (c : list byte) :
  Fs.read_file (disk m) path = Some c ->
  status (dispatch (send_file m req path mime)) = 416%N
  \/ exists off n,
       body (dispatch (send_file m req path mime))
       = Bytes (firstn n (skipn off c)).
Proof.
  intros Hread. unfold send_file. rewrite Hread. cbv zeta.
  assert (Hwhole : c = firstn (List.length c) (skipn 0 c))
    by (cbn [skipn]; symmetry; apply firstn_all).
  destruct (range req) as [[first last]|].
  - destruct (_ =? _)%N.
    + right. exists 0, (List.length c). cbn [dispatch body]. now f_equal.
    + destruct (_ && _)%bool; [|now left].
      right. eexists _, _. reflexivity.
  - right. exists 0, (List.length c). cbn [dispatch body]. now f_equal.
Qed.

Lemma stat_file_read (fs : Fs.t) (path : string) (c : list byte) :
  Fs.stat fs path = Some (Fs.File c) -> Fs.read_file fs path = Some c.
Proof. unfold Fs.read_file. now intros ->. Qed.

Lemma last_in (l : list string) (d : string) : l <> [] -> In (List.last l d) l.
Proof.
  induction l as [|x l IH]; [contradiction|]. intros _.
  destruct l as [|y l]; [now left|].
  right. apply IH. discriminate.
Qed.

Lemma names_of_videos (subpath : string) (l : list string) :
  names_of
    (Some (VList
       (List.map (fun f =>
          VDict [("name", VStr f)%string;
                 ("href",
                  VStr ("/browse/" ++
                        (if negb (Str.is_empty subpath)
                         then subpath ++ "/" ++ f else f)))%string]) l)))
  = l.
Proof.
  cbn [names_of]. induction l as [|x l IH]; [reflexivity|].
  cbn [List.map flat_map]. rewrite IH. reflexivity.
Qed.

Lemma names_of_strings (l : list string) :
  names_of (Some (VList (List.map VStr l))) = l.
Proof.
  cbn [names_of]. induction l as [|x l IH]; [reflexivity|].
  cbn [List.map flat_map]. rewrite IH. reflexivity.
Qed.

(** What [/browse] answers for a directory: 500, or a listing whose
    names are entries of that directory. *)
Lemma browse_directory (m : machine) (req : request) (p : string)
  (entries : list (string * Fs.node)) :
  Fs.stat (disk m) (resolved p) = Some (Fs.Dir entries) ->
  status (browse m req p) = 500%N
  \/ exists ctx,
       body (browse m req p) = Template "index.html" ctx
       /\ forall n, In n (listed ctx) -> In n (List.map fst entries).
Proof.
  intros Hstat. unfold browse, browse_view. fold (resolved p).
  unfold Fs.exists_, Fs.isfile, Fs.listdir. rewrite Hstat. cbn [negb].
  change (Str.contains "ux" (Str.lower template_folder)) with true.
  cbv iota.
  set (items := List.map fst entries).
  match goal with
  | |- context [thumb_loop m p ?d ?f] =>
      pose proof (ListingFacts.thumb_loop_result m p d f) as Hloop;
      destruct (thumb_loop m p d f) as [e|l]
  end.
  - left. destruct Hloop as [[-> _] | ->]; reflexivity.
  - right. destruct Hloop as [Hne ->]. eexists. split; [reflexivity|].
    intros n. unfold listed. cbn [Fs.assoc String.eqb Ascii.eqb Bool.eqb].
    rewrite names_of_videos, names_of_strings. cbn [names_of flat_map Fs.assoc String.eqb Ascii.eqb Bool.eqb app].
    intros [<- | Hin].
    + apply last_in with (d := ""%string) in Hne.
      apply ListingFacts.sorted_in, filter_In in Hne. tauto.
    + apply in_app_or in Hin as [Hin | Hin];
        apply ListingFacts.sorted_in, filter_In in Hin as [Hin _];
        apply ListingFacts.sorted_in, filter_In in Hin; tauto.
Qed.

(** C1, amended: each of [/video], [/stream] and [/browse] answers 404
    or answers from the one location that the join of [BASE_DIR] and the
    request path resolves to: [/video] sends bytes of the regular file
    there (or 416), [/stream] hands the path of the regular file there
    to the encoder, [/browse] sends bytes of the file there or a listing
    whose names are entries of the directory there (or 500); no route
    checks the path or answers 403.  For a request path
    with no drive or UNC prefix and no leading separator whose [..]
    segments never step above [BASE_DIR], that location is inside
    [BASE_DIR], strictly unless no segment is left. *)
Theorem routes_work_on_the_joined_location (m : machine) (req : request)
  (p : string) :
  let loc := Fs.locate (disk m) (resolved p) in
  (forall d, reach p = Some d ->
             Fs.at_or_below root loc
             /\ (d <> 0 -> Fs.strictly_below root loc))
  /\ (video m req p = text_response "File not found" 404
      \/ exists c,
           Fs.lookup (disk m) loc = Some (Fs.File c)
           /\ (status (video m req p) = 416%N
               \/ exists off n,
                    body (video m req p) = Bytes (firstn n (skipn off c))))
  /\ (stream m p = text_response "File not found" 404
      \/ exists c,
           Fs.lookup (disk m) loc = Some (Fs.File c)
           /\ body (stream m p) = Stream (GenCreated (resolved p))
           /\ forall client,
                spawn_log (final (serve m client (stream m p)))
                = [FFMPEG :: "-i"%string :: resolved p :: fixed_args])
  /\ (browse m req p = text_response "Path not found" 404
      \/ (exists c,
            Fs.lookup (disk m) loc = Some (Fs.File c)
            /\ (status (browse m req p) = 416%N
                \/ exists off n,
                     body (browse m req p) = Bytes (firstn n (skipn off c))))
      \/ (exists entries,
            Fs.lookup (disk m) loc = Some (Fs.Dir entries)
            /\ (status (browse m req p) = 500%N
                \/ exists ctx,
                     body (browse m req p) = Template "index.html" ctx
                     /\ forall n, In n (listed ctx) ->
                                  In n (List.map fst entries))))
  /\ status (video m req p) <> 403%N
  /\ status (stream m p) <> 403%N
  /\ status (browse m req p) <> 403%N.
Proof.
  intros loc. subst loc.
  change (Fs.lookup (disk m) (Fs.locate (disk m) (resolved p)))
    with (Fs.stat (disk m) (resolved p)).
  split; [|split; [|split; [|split; [|split; [|split]]]]].
  - intros d Hd.
    destruct (reach_inside (disk m) p d Hd) as (below & Hlen & ->).
    split; [split; [reflexivity | now exists below]|].
    intros Hpos. destruct below as [|s rest]; [cbn in Hlen; congruence|].
    split; [reflexivity | now exists s, rest].
  - destruct (Fs.stat (disk m) (resolved p)) as [[c|entries]|] eqn:Hstat.
    + right. exists c. split; [reflexivity|].
      pose proof (stat_file_read _ _ _ Hstat) as Hread.
      rewrite (RouteFacts.video_sends m req p c Hread).
      now apply send_file_span.
    + left. unfold video. fold (resolved p).
      unfold Fs.isfile. rewrite Hstat. now rewrite orb_true_r.
    + left. unfold video. fold (resolved p).
      unfold Fs.exists_. now rewrite Hstat.
  - destruct (Fs.isfile (disk m) (resolved p)) eqn:Hf.
    + right. destruct (RouteFacts.isfile_read _ _ Hf) as [c Hstat].
      exists c. split; [exact Hstat|].
      rewrite (StreamFacts.stream_opens m p Hf). split; [reflexivity|].
      intros client. cbn [serve body].
      destruct (encoder m (command (resolved p))) as [script|] eqn:Henc.
      * rewrite (StreamFacts.drive_created m client _ script [] Henc).
        destruct (StreamFacts.drive_process m client
                    (Enc.mk (command (resolved p)) script 0 false)
                    [command (resolved p)] []) as (Hlog & _).
        exact Hlog.
      * now rewrite (StreamFacts.drive_not_launched m client _ [] Henc).
    + left. apply StreamFacts.stream_missing. now right.
  - destruct (Fs.stat (disk m) (resolved p)) as [[c|entries]|] eqn:Hstat.
    + right; left. exists c. split; [reflexivity|].
      pose proof (stat_file_read _ _ _ Hstat) as Hread.
      destruct (RouteFacts.read_file_checks _ _ _ Hread) as [He Hfile].
      unfold browse, browse_view. fold (resolved p). rewrite He, Hfile.
      cbn [negb]. now apply send_file_span.
    + right; right. exists entries. split; [reflexivity|].
      now apply browse_directory.
    + left. unfold browse, browse_view. fold (resolved p).
      unfold Fs.exists_. now rewrite Hstat.
  - apply RouteFacts.video_not_forbidden.
  - apply RouteFacts.stream_not_forbidden.
  - apply RouteFacts.browse_not_forbidden.
Qed.

Lemma routes_work_on_the_joined_location_witness :
  reach "Show/../Show/ep1.mp4" = Some 2
  /\ Fs.strictly_below root
       (Fs.locate (disk Sample.machine_quiet) (resolved "Show/../Show/ep1.mp4")).
Proof.
  split; [reflexivity|].
  destruct (routes_work_on_the_joined_location Sample.machine_quiet
              Sample.plain_get "Show/../Show/ep1.mp4") as (Hin & _).
  destruct (Hin 2 eq_refl) as [_ Hstrict]. apply Hstrict. discriminate.
Defined.

End ConfinementFacts.
